(** * Shortlink API: a shallow embedding of [main.py] and its properties

    The service keeps one table, [shortlinks], and exposes five endpoints
    over it: [create_link], [redirect_link], [get_stats], [list_links] and
    [deactivate_link].  The table is modelled as the list of its rows in
    rowid order, a handler as a computation over the database and the
    random generator that may raise, and concurrent requests as an
    interleaving of the database round trips of their handlers. *)

From Stdlib Require Import ZArith Ascii String Sorted Permutation.
From stdpp Require Import base tactics option list strings.

Local Open Scope string_scope.

(** ** Database model and schemas *)

(** [datetime] values are only stored, compared and ordered: an integer
    time stamp carries all the handlers use. *)
Definition datetime : Type := Z.

(** class ShortLink(Base): one row of the table [shortlinks].
    [click_count] is a Python [int], without a bound; the 64 bits of the
    column are out of reach of any run. *)
Module ShortLink.
Record t : Type := Build {
  id : nat;
  short_code : string;
  target_url : string;
  created_at : datetime;
  click_count : Z;
  last_clicked_at : option datetime;
  active : bool;
  note : option string
}.
End ShortLink.

(** class CreateLinkRequest(BaseModel).  [url] is the string form of the
    validated [HttpUrl]. *)
Module CreateLinkRequest.
Record t : Type := Build {
  url : string;
  custom_code : option string;
  note : option string
}.
End CreateLinkRequest.

Module ShortLinkResponse.
Record t : Type := Build {
  short_code : string;
  short_url : string;
  target_url : string;
  created_at : datetime;
  click_count : Z;
  last_clicked_at : option datetime;
  active : bool;
  note : option string
}.
End ShortLinkResponse.

Module StatsResponse.
Record t : Type := Build {
  short_code : string;
  target_url : string;
  created_at : datetime;
  click_count : Z;
  last_clicked_at : option datetime;
  active : bool;
  note : option string
}.
End StatsResponse.

Module ListLinksResponse.
Record t : Type := Build {
  total : nat;
  items : list ShortLinkResponse.t
}.
End ListLinksResponse.

Module RedirectResponse.
Record t : Type := Build {
  url : string;
  status_code : nat
}.
End RedirectResponse.

(** ** Exceptions *)

(** What a handler can raise: an [HTTPException] of its own, the
    [IntegrityError] of a commit that violates [unique=True] on
    [short_code], or the [OverflowError] of the SQLite driver when an
    integer parameter of a statement does not fit 64 bits; no handler
    catches the last two. *)
Inductive exception : Type :=
| HTTPException (status_code : nat) (detail : string)
| IntegrityError
| OverflowError.

Definition HTTP_400_BAD_REQUEST : nat := 400.
Definition HTTP_404_NOT_FOUND : nat := 404.
Definition HTTP_500_INTERNAL_SERVER_ERROR : nat := 500.
Definition HTTP_307_TEMPORARY_REDIRECT : nat := 307.

(** The spec's names for the three failures the handlers signal. *)
Definition CustomCodeTaken : exception :=
  HTTPException HTTP_400_BAD_REQUEST "Custom code already in use.".
Definition GenerationExhausted : exception :=
  HTTPException HTTP_500_INTERNAL_SERVER_ERROR "Failed to generate unique short code.".
Definition NotFound : exception :=
  HTTPException HTTP_404_NOT_FOUND "Link not found.".

Inductive result (A : Type) : Type :=
| Ok (a : A)
| Raise (e : exception).
Arguments Ok {A} a.
Arguments Raise {A} e.

Global Instance result_fmap : FMap result := fun A B f r =>
  match r with
  | Ok a => Ok (f a)
  | Raise e => Raise e
  end.

(** ** The world a handler runs in *)

(** The state of [random]: the stream of numbers it will deliver and how
    many of them have been consumed. *)
Record RandomState : Type := {
  draws : nat -> nat;
  consumed : nat
}.

Record World : Type := {
  db : list ShortLink.t;
  rand : RandomState
}.

Definition M (A : Type) : Type := World -> result A * World.

Definition raise {A} (e : exception) : M A := fun w => (Raise e, w).

Global Instance M_ret : MRet M := fun A a w => (Ok a, w).
Global Instance M_bind : MBind M := fun A B k m w =>
  match m w with
  | (Ok a, w') => k a w'
  | (Raise e, w') => (Raise e, w')
  end.

(** *** The session *)

Definition code_is (code : string) (l : ShortLink.t) : Prop :=
  ShortLink.short_code l = code.
Definition code_is_active (code : string) (l : ShortLink.t) : Prop :=
  ShortLink.short_code l = code /\ ShortLink.active l = true.

Global Instance code_is_dec code l : Decision (code_is code l).
Proof. unfold code_is. apply _. Defined.
Global Instance code_is_active_dec code l : Decision (code_is_active code l).
Proof. unfold code_is_active. apply _. Defined.

(** db.query(ShortLink).filter(...).first(): the first row that passes the
    filter, with its position in the table. *)
Definition query_first (P : ShortLink.t -> Prop) `{!forall l, Decision (P l)}
  : M (option (nat * ShortLink.t)) :=
  fun w => (Ok (list_find P (db w)), w).

(** The primary key of the next row. *)
Definition next_id (rows : list ShortLink.t) : nat :=
  S (foldr Nat.max 0 (ShortLink.id <$> rows)).

(** ShortLink(short_code=..., target_url=..., note=...) as the flush
    completes it with the column defaults. *)
Definition new_link (rows : list ShortLink.t) (now : datetime)
    (short_code target_url : string) (note : option string) : ShortLink.t :=
  {| ShortLink.id := next_id rows;
     ShortLink.short_code := short_code;
     ShortLink.target_url := target_url;
     ShortLink.created_at := now;
     ShortLink.click_count := 0%Z;
     ShortLink.last_clicked_at := None;
     ShortLink.active := true;
     ShortLink.note := note |}.

(** db.add(link); db.commit(); db.refresh(link).  The unique index on
    [short_code] refuses a second row with the same code. *)
Definition add_commit (now : datetime) (short_code target_url : string)
    (note : option string) : M ShortLink.t :=
  fun w =>
    match list_find (code_is short_code) (db w) with
    | Some _ => (Raise IntegrityError, w)
    | None =>
        let link := new_link (db w) now short_code target_url note in
        (Ok link, {| db := db w ++ [link]; rand := rand w |})
    end.

(** db.commit() after the attributes of the row at position [i] were
    assigned. *)
Definition commit_row (i : nat) (link : ShortLink.t) : M unit :=
  fun w => (Ok tt, {| db := <[i := link]> (db w); rand := rand w |}).

(** *** Helpers *)

Definition ascii_lowercase : string := "abcdefghijklmnopqrstuvwxyz".
Definition ascii_uppercase : string := "ABCDEFGHIJKLMNOPQRSTUVWXYZ".
Definition ascii_letters : string := ascii_lowercase ++ ascii_uppercase.
Definition digits : string := "0123456789".

(** random.choice(chars) *)
Definition random_choice (chars : string) : M ascii :=
  fun w =>
    let r := rand w in
    let k := draws r (consumed r) mod String.length chars in
    (Ok (default "000"%char (String.get k chars)),
     {| db := db w; rand := {| draws := draws r; consumed := S (consumed r) |} |}).

(** "".join(random.choice(chars) for _ in range(length)) *)
Fixpoint join_choices (chars : string) (length : nat) : M string :=
  match length with
  | O => mret ""
  | S n =>
      c ← random_choice chars;
      s ← join_choices chars n;
      mret (String c s)
  end.

Definition generate_short_code (length : nat) : M string :=
  let chars := ascii_letters ++ digits in
  join_choices chars length.

(** s.rstrip(c) *)
Fixpoint rstrip (c : ascii) (s : string) : string :=
  match s with
  | EmptyString => EmptyString
  | String a s' =>
      match rstrip c s' with
      | EmptyString => if decide (a = c) then EmptyString else String a EmptyString
      | r => String a r
      end
  end.

(** *** Queries of [list_links] *)

(** ORDER BY created_at DESC: rows with the later [created_at] first, rows
    of equal [created_at] in table order. *)
Fixpoint insert_desc (x : ShortLink.t) (rows : list ShortLink.t) : list ShortLink.t :=
  match rows with
  | [] => [x]
  | y :: rows' =>
      if (ShortLink.created_at y <=? ShortLink.created_at x)%Z
      then x :: y :: rows'
      else y :: insert_desc x rows'
  end.

Definition order_by_created_at_desc (rows : list ShortLink.t) : list ShortLink.t :=
  foldr insert_desc [] rows.

(** OFFSET n: a negative offset skips nothing. *)
Definition sql_offset (n : Z) (rows : list ShortLink.t) : list ShortLink.t :=
  drop (Z.to_nat n) rows.

(** LIMIT n: a negative limit is no limit. *)
Definition sql_limit (n : Z) (rows : list ShortLink.t) : list ShortLink.t :=
  if (n <? 0)%Z then rows else take (Z.to_nat n) rows.

Definition query_ordered : M (list ShortLink.t) :=
  fun w => (Ok (order_by_created_at_desc (db w)), w).

(** The integers the SQLite driver binds as parameters: the signed 64-bit
    ones. *)
Definition sqlite_integer (n : Z) : bool :=
  ((-9223372036854775808 <=? n) && (n <=? 9223372036854775807))%Z.

(** q.offset(skip).limit(limit).all(): [skip] and [limit] are parameters
    of the statement, and the driver raises before the statement runs
    when one of them is not a 64-bit integer. *)
Definition query_page (skip limit : Z) (q : list ShortLink.t) : M (list ShortLink.t) :=
  fun w =>
    if sqlite_integer skip && sqlite_integer limit
    then (Ok (sql_limit limit (sql_offset skip q)), w)
    else (Raise OverflowError, w).

(** ** The application *)

Section App.

(** BASE_SHORT_URL = os.getenv("BASE_SHORT_URL", "http://localhost:9500") *)
Variable BASE_SHORT_URL : string.

Definition build_short_url (code : string) : string :=
  rstrip "/"%char BASE_SHORT_URL ++ "/" ++ code.

Definition short_link_response (link : ShortLink.t) : ShortLinkResponse.t :=
  {| ShortLinkResponse.short_code := ShortLink.short_code link;
     ShortLinkResponse.short_url := build_short_url (ShortLink.short_code link);
     ShortLinkResponse.target_url := ShortLink.target_url link;
     ShortLinkResponse.created_at := ShortLink.created_at link;
     ShortLinkResponse.click_count := ShortLink.click_count link;
     ShortLinkResponse.last_clicked_at := ShortLink.last_clicked_at link;
     ShortLinkResponse.active := ShortLink.active link;
     ShortLinkResponse.note := ShortLink.note link |}.

Definition stats_response (link : ShortLink.t) : StatsResponse.t :=
  {| StatsResponse.short_code := ShortLink.short_code link;
     StatsResponse.target_url := ShortLink.target_url link;
     StatsResponse.created_at := ShortLink.created_at link;
     StatsResponse.click_count := ShortLink.click_count link;
     StatsResponse.last_clicked_at := ShortLink.last_clicked_at link;
     StatsResponse.active := ShortLink.active link;
     StatsResponse.note := ShortLink.note link |}.

(** The [for _ in range(10): ... else: raise] loop of [create_link], with
    the attempts that are left. *)
Fixpoint generate_unique (attempts : nat) : M string :=
  match attempts with
  | O => raise GenerationExhausted
  | S n =>
      short_code ← generate_short_code 7;
      existing ← query_first (code_is short_code);
      match existing with
      | None => mret short_code
      | Some _ => generate_unique n
      end
  end.

(** The first half of [create_link]: the code the new row will carry.
    [if payload.custom_code:] is false for [None] and for the empty
    string. *)
Definition choose_short_code (payload : CreateLinkRequest.t) : M string :=
  match CreateLinkRequest.custom_code payload with
  | Some (String _ _ as custom_code) =>
      existing ← query_first (code_is custom_code);
      match existing with
      | Some _ => raise CustomCodeTaken
      | None => mret custom_code
      end
  | _ => generate_unique 10
  end.

(** The second half of [create_link]: the insert and the response. *)
Definition persist_link (payload : CreateLinkRequest.t) (now : datetime)
    (short_code : string) : M ShortLinkResponse.t :=
  link ← add_commit now short_code
           (CreateLinkRequest.url payload) (CreateLinkRequest.note payload);
  mret (short_link_response link).

Definition create_link (payload : CreateLinkRequest.t) (now : datetime)
  : M ShortLinkResponse.t :=
  short_code ← choose_short_code payload;
  persist_link payload now short_code.

(** link.click_count += 1; link.last_clicked_at = datetime.utcnow() *)
Definition clicked (now : datetime) (link : ShortLink.t) : ShortLink.t :=
  {| ShortLink.id := ShortLink.id link;
     ShortLink.short_code := ShortLink.short_code link;
     ShortLink.target_url := ShortLink.target_url link;
     ShortLink.created_at := ShortLink.created_at link;
     ShortLink.click_count := ShortLink.click_count link + 1;
     ShortLink.last_clicked_at := Some now;
     ShortLink.active := ShortLink.active link;
     ShortLink.note := ShortLink.note link |}.

Definition redirect_link (code : string) (now : datetime) : M RedirectResponse.t :=
  link ← query_first (code_is_active code);
  match link with
  | None => raise NotFound
  | Some (i, link) =>
      let link := clicked now link in
      commit_row i link;;
      mret {| RedirectResponse.url := ShortLink.target_url link;
              RedirectResponse.status_code := HTTP_307_TEMPORARY_REDIRECT |}
  end.

Definition get_stats (code : string) : M StatsResponse.t :=
  link ← query_first (code_is code);
  match link with
  | None => raise NotFound
  | Some (_, link) => mret (stats_response link)
  end.

Definition list_links (skip limit : Z) : M ListLinksResponse.t :=
  q ← query_ordered;
  let total := length q in
  items_raw ← query_page skip limit q;
  let items := short_link_response <$> items_raw in
  mret {| ListLinksResponse.total := total; ListLinksResponse.items := items |}.

(** link.active = False *)
Definition deactivated (link : ShortLink.t) : ShortLink.t :=
  {| ShortLink.id := ShortLink.id link;
     ShortLink.short_code := ShortLink.short_code link;
     ShortLink.target_url := ShortLink.target_url link;
     ShortLink.created_at := ShortLink.created_at link;
     ShortLink.click_count := ShortLink.click_count link;
     ShortLink.last_clicked_at := ShortLink.last_clicked_at link;
     ShortLink.active := false;
     ShortLink.note := ShortLink.note link |}.

Definition deactivate_link (code : string) : M StatsResponse.t :=
  link ← query_first (code_is code);
  match link with
  | None => raise NotFound
  | Some (i, link) =>
      let link := deactivated link in
      commit_row i link;;
      mret (stats_response link)
  end.

(** *** Sequences of requests *)

Inductive request : Type :=
| CreateLink (payload : CreateLinkRequest.t)
| RedirectLink (code : string)
| GetStats (code : string)
| ListLinks (skip limit : Z)
| DeactivateLink (code : string).

(** The world after the handler of [r] ran at time [now]. *)
Definition serve (r : request) (now : datetime) (w : World) : World :=
  match r with
  | CreateLink payload => (create_link payload now w).2
  | RedirectLink code => (redirect_link code now w).2
  | GetStats code => (get_stats code w).2
  | ListLinks skip limit => (list_links skip limit w).2
  | DeactivateLink code => (deactivate_link code w).2
  end.

(** The world after a sequence of requests, served one after the other. *)
Definition serve_all (rs : list (request * datetime)) (w : World) : World :=
  foldl (fun w r => serve r.1 r.2 w) w rs.

Definition startup (r : RandomState) : World := {| db := []; rand := r |}.

(** *** Concurrent create requests

    A handler talks to the database in round trips, and the round trips
    of requests served at the same time interleave.  [create_link] makes
    its queries for an existing row first ([choose_short_code]) and
    commits the new row afterwards ([persist_link]); nothing ties the two
    together, so the rows another request commits in between are not seen
    by the check. *)

Inductive task : Type :=
| Arrived (payload : CreateLinkRequest.t)
| Checked (payload : CreateLinkRequest.t) (short_code : string)
| Finished (r : result ShortLinkResponse.t).

(** The next round trip of one request, made at time [now]. *)
Definition step_task (now : datetime) (t : task) (w : World) : task * World :=
  match t with
  | Arrived payload =>
      match choose_short_code payload w with
      | (Ok short_code, w') => (Checked payload short_code, w')
      | (Raise e, w') => (Finished (Raise e), w')
      end
  | Checked payload short_code =>
      let (r, w') := persist_link payload now short_code w in
      (Finished r, w')
  | Finished r => (Finished r, w)
  end.

(** One scheduling decision: request number [ev.1] makes its next round
    trip at time [ev.2]. *)
Definition step (st : list task * World) (ev : nat * datetime) : list task * World :=
  match st.1 !! ev.1 with
  | None => st
  | Some t =>
      let (t', w') := step_task ev.2 t st.2 in
      (<[ev.1 := t']> st.1, w')
  end.

Definition run_schedule (sched : list (nat * datetime)) (st : list task * World)
  : list task * World :=
  foldl step st sched.

Definition finished (t : task) : Prop :=
  match t with Finished _ => True | _ => False end.

Definition succeeded (t : task) : Prop :=
  match t with Finished (Ok _) => True | _ => False end.

Definition failed_with (e : exception) (t : task) : Prop :=
  t = Finished (Raise e).

(** ** Vocabulary of the properties *)

(** The unique index on [short_code]. *)
Definition unique_codes (rows : list ShortLink.t) : Prop :=
  NoDup (ShortLink.short_code <$> rows).

(** [a] may stand before [b] in a listing by [created_at] descending. *)
Definition not_older (a b : ShortLink.t) : Prop :=
  (ShortLink.created_at b <= ShortLink.created_at a)%Z.

(** The string that [length] choices from [chars] spell when the random
    numbers are read from position [start] of the stream [d]. *)
Fixpoint chosen (chars : string) (d : nat -> nat) (start length : nat) : string :=
  match length with
  | O => ""
  | S n =>
      String (default "000"%char (String.get (d start mod String.length chars) chars))
             (chosen chars d (S start) n)
  end.

(** The code that attempt number [k] (from 0) of the generation loop
    produces when the loop starts in random state [r]. *)
Definition candidate (r : RandomState) (k : nat) : string :=
  chosen (ascii_letters ++ digits) (draws r) (consumed r + 7 * k) 7.

(** The random state after [n] more draws. *)
Definition advance (n : nat) (r : RandomState) : RandomState :=
  {| draws := draws r; consumed := consumed r + n |}.

(** Some row of the table carries [code]. *)
Definition taken (rows : list ShortLink.t) (code : string) : Prop :=
  exists link, link ∈ rows /\ ShortLink.short_code link = code.

(** [payload.custom_code] is falsy. *)
Definition no_custom_code (payload : CreateLinkRequest.t) : Prop :=
  CreateLinkRequest.custom_code payload = None
  \/ CreateLinkRequest.custom_code payload = Some "".

(** The four things a request served at time [now] can do to the table:
    nothing, append a row with a free, non-empty code, count a click on an
    active row, deactivate a row. *)
Inductive db_change (now : datetime) (rows : list ShortLink.t)
  : list ShortLink.t -> Prop :=
| db_unchanged : db_change now rows rows
| db_inserted code url note :
    ~ taken rows code -> code <> "" ->
    db_change now rows (rows ++ [new_link rows now code url note])
| db_clicked i link :
    rows !! i = Some link -> ShortLink.active link = true ->
    db_change now rows (<[i := clicked now link]> rows)
| db_deactivated i link :
    rows !! i = Some link ->
    db_change now rows (<[i := deactivated link]> rows).

(** No row carries the empty code. *)
Definition nonempty_codes (rows : list ShortLink.t) : Prop :=
  Forall (fun link => ShortLink.short_code link <> "") rows.

(** [last_clicked_at] is set exactly when [click_count] is positive. *)
Definition click_invariant (link : ShortLink.t) : Prop :=
  ShortLink.last_clicked_at link <> None <-> (0 < ShortLink.click_count link)%Z.

(** The invariant together with what makes it inductive: a count is
    never negative. *)
Definition click_state_ok (link : ShortLink.t) : Prop :=
  (0 <= ShortLink.click_count link)%Z /\ click_invariant link.

(** What a request for [code] can be up to. *)
Definition for_code (code : string) (t : task) : Prop :=
  match t with
  | Arrived payload => CreateLinkRequest.custom_code payload = Some code
  | Checked _ short_code => short_code = code
  | Finished (Ok resp) => ShortLinkResponse.short_code resp = code
  | Finished (Raise e) => e = CustomCodeTaken \/ e = IntegrityError
  end.

(** Request number [i] is the one that succeeded. *)
Definition only_winner (i : nat) (tasks : list task) : Prop :=
  (exists t, tasks !! i = Some t /\ succeeded t)
  /\ forall j t, j <> i -> tasks !! j = Some t -> ~ succeeded t.

(** While the code is free nobody has finished; once it is taken exactly
    one request has succeeded. *)
Definition race_invariant (code : string) (st : list task * World) : Prop :=
  Forall (for_code code) st.1
  /\ ((~ taken (db st.2) code /\ Forall (fun t => ~ finished t) st.1)
      \/ (taken (db st.2) code /\ exists i, only_winner i st.1)).

(** The shape the spec asks of a custom code (1 to 32 characters of a safe
    charset), written down from the spec's words to be compared with what
    [create_link] does; the handler has no counterpart of it. *)
Definition spec_safe_char (c : ascii) : bool :=
  let n := nat_of_ascii c in
  ((48 <=? n) && (n <=? 57) || (65 <=? n) && (n <=? 90) || (97 <=? n) && (n <=? 122)
   || (n =? 45) || (n =? 95))%nat.

Definition spec_well_formed_custom_code (code : string) : bool :=
  (1 <=? String.length code)%nat && (String.length code <=? 32)%nat
  && forallb spec_safe_char (list_ascii_of_string code).

(** What the spec promises of requests that race for one custom code:
    one succeeds and every other one fails with the 400 of a taken code. *)
Definition spec_one_wins_rest_taken (tasks : list task) : Prop :=
  exists i, only_winner i tasks
            /\ forall j t, j <> i -> tasks !! j = Some t -> failed_with CustomCodeTaken t.

(** [c] is one of the 62 characters of [ascii_letters + digits]. *)
Definition alphanumeric (c : ascii) : Prop :=
  c ∈ list_ascii_of_string (ascii_letters ++ digits).

(** [k] times the character [c]. *)
Fixpoint repeated (c : ascii) (k : nat) : string :=
  match k with
  | O => ""
  | S k' => String c (repeated c k')
  end.

(** The last character of [s] is [c]. *)
Definition ends_with (c : ascii) (s : string) : Prop :=
  exists p, s = p ++ String c "".

(** What a row can become while requests are served: its key, code,
    target, creation time and note stay, its count does not shrink, a
    recorded click time is not erased, and it is not activated again. *)
Definition evolves (old new : ShortLink.t) : Prop :=
  ShortLink.id new = ShortLink.id old
  /\ ShortLink.short_code new = ShortLink.short_code old
  /\ ShortLink.target_url new = ShortLink.target_url old
  /\ ShortLink.created_at new = ShortLink.created_at old
  /\ ShortLink.note new = ShortLink.note old
  /\ (ShortLink.click_count old <= ShortLink.click_count new)%Z
  /\ (ShortLink.active new = true -> ShortLink.active old = true).

(** Redirect requests for [code], one at each of [times]. *)
Definition redirects (code : string) (times : list datetime) : list (request * datetime) :=
  (fun now => (RedirectLink code, now)) <$> times.

(** ** Sample data *)

(** The default of BASE_SHORT_URL. *)
Definition localhost : string := "http://localhost:9500".

Definition counting : RandomState := {| draws := fun n => n; consumed := 0 |}.
Definition stuck : RandomState := {| draws := fun _ => 0; consumed := 0 |}.

Definition promo1 : ShortLink.t :=
  {| ShortLink.id := 1;
     ShortLink.short_code := "promo1";
     ShortLink.target_url := "https://a.example/x";
     ShortLink.created_at := 10%Z;
     ShortLink.click_count := 0%Z;
     ShortLink.last_clicked_at := None;
     ShortLink.active := true;
     ShortLink.note := None |}.

Definition retired : ShortLink.t :=
  {| ShortLink.id := 2;
     ShortLink.short_code := "old";
     ShortLink.target_url := "https://b.example/y";
     ShortLink.created_at := 20%Z;
     ShortLink.click_count := 2%Z;
     ShortLink.last_clicked_at := Some 25%Z;
     ShortLink.active := false;
     ShortLink.note := Some "spring" |}.

Definition aaaaaaa : ShortLink.t :=
  {| ShortLink.id := 1;
     ShortLink.short_code := "aaaaaaa";
     ShortLink.target_url := "https://c.example/z";
     ShortLink.created_at := 5%Z;
     ShortLink.click_count := 0%Z;
     ShortLink.last_clicked_at := None;
     ShortLink.active := true;
     ShortLink.note := None |}.

Definition two_links : World := {| db := [promo1; retired]; rand := counting |}.
Definition crowded : World := {| db := [aaaaaaa]; rand := stuck |}.

Definition promo_request : CreateLinkRequest.t :=
  {| CreateLinkRequest.url := "https://a.example/x";
     CreateLinkRequest.custom_code := Some "promo1";
     CreateLinkRequest.note := None |}.

Definition plain_request : CreateLinkRequest.t :=
  {| CreateLinkRequest.url := "https://example.com/page";
     CreateLinkRequest.custom_code := None;
     CreateLinkRequest.note := None |}.

Definition odd_code : string :=
  "not a code/?#% and far longer than thirty-two characters".

Definition odd_request : CreateLinkRequest.t :=
  {| CreateLinkRequest.url := "https://a.example/x";
     CreateLinkRequest.custom_code := Some odd_code;
     CreateLinkRequest.note := None |}.

(** Two requests for the code "promo1": both make their query before
    either commits. *)
Definition racing_schedule : list (nat * datetime) :=
  [(0, 1%Z); (1, 2%Z); (0, 3%Z); (1, 4%Z)].

(** ** Properties *)

Ltac run :=
  unfold redirect_link, get_stats, deactivate_link, list_links, create_link,
    choose_short_code, persist_link, query_first, query_ordered, query_page, commit_row,
    add_commit, raise, mbind, mret, M_bind, M_ret in *; simpl in *.

(** *** Lookups by code *)

Lemma find_code_at (rows : list ShortLink.t) i link :
  unique_codes rows -> rows !! i = Some link ->
  list_find (code_is (ShortLink.short_code link)) rows = Some (i, link).
Proof.
  intros Hu Hi. apply list_find_Some. split; [done|]. split; [done|].
  intros j y Hj Hlt Hy. unfold code_is in Hy.
  assert (j = i); [|lia].
  eapply (NoDup_lookup _ j i _ Hu); rewrite list_lookup_fmap.
  - rewrite Hj. simpl. by rewrite Hy.
  - by rewrite Hi.
Qed.

Lemma find_active_at (rows : list ShortLink.t) i link :
  unique_codes rows -> rows !! i = Some link -> ShortLink.active link = true ->
  list_find (code_is_active (ShortLink.short_code link)) rows = Some (i, link).
Proof.
  intros Hu Hi Ha. apply list_find_Some. split; [done|]. split; [done|].
  intros j y Hj Hlt [Hy _].
  assert (j = i); [|lia].
  eapply (NoDup_lookup _ j i _ Hu); rewrite list_lookup_fmap.
  - rewrite Hj. simpl. by rewrite Hy.
  - by rewrite Hi.
Qed.

Lemma find_code_none (rows : list ShortLink.t) code :
  list_find (code_is code) rows = None <->
  forall link, link ∈ rows -> ShortLink.short_code link <> code.
Proof. rewrite list_find_None, Forall_forall. done. Qed.

Lemma find_code_some (rows : list ShortLink.t) code link :
  link ∈ rows -> ShortLink.short_code link = code ->
  is_Some (list_find (code_is code) rows).
Proof.
  intros Hin Hc. destruct (list_find (code_is code) rows) eqn:E; [done|].
  exfalso. eapply find_code_none; eauto.
Qed.

Lemma unique_codes_insert (rows : list ShortLink.t) i link link' :
  rows !! i = Some link ->
  ShortLink.short_code link' = ShortLink.short_code link ->
  (ShortLink.short_code <$> <[i := link']> rows) = (ShortLink.short_code <$> rows).
Proof.
  intros Hi Hc. rewrite list_fmap_insert, Hc.
  apply list_insert_id. by rewrite list_lookup_fmap, Hi.
Qed.

(** *** Redirect *)

(** C1.  Under the unique index, a redirect to the code of an active row
    answers with the row's [target_url], adds exactly 1 to the row's
    [click_count] and sets its [last_clicked_at] to the current time; the
    other columns of the row, the other rows and the number of rows stay
    as they were.  When every row that carries the code is inactive, or
    no row carries it, the redirect raises the same 404 and leaves the
    world as it was. *)
Theorem redirect_link_spec (w : World) (code : string) (now : datetime) :
  (forall i link,
      unique_codes (db w) ->
      db w !! i = Some link ->
      ShortLink.short_code link = code ->
      ShortLink.active link = true ->
      exists w' link',
        redirect_link code now w =
          (Ok {| RedirectResponse.url := ShortLink.target_url link;
                 RedirectResponse.status_code := 307 |}, w')
        /\ rand w' = rand w
        /\ length (db w') = length (db w)
        /\ (forall j, j <> i -> db w' !! j = db w !! j)
        /\ db w' !! i = Some link'
        /\ ShortLink.click_count link' = (ShortLink.click_count link + 1)%Z
        /\ ShortLink.last_clicked_at link' = Some now
        /\ ShortLink.id link' = ShortLink.id link
        /\ ShortLink.short_code link' = ShortLink.short_code link
        /\ ShortLink.target_url link' = ShortLink.target_url link
        /\ ShortLink.created_at link' = ShortLink.created_at link
        /\ ShortLink.active link' = ShortLink.active link
        /\ ShortLink.note link' = ShortLink.note link)
  /\ ((forall link, link ∈ db w -> ShortLink.short_code link = code ->
                   ShortLink.active link = false) ->
      redirect_link code now w = (Raise NotFound, w)).
Proof.
  split.
  - intros i link Hu Hi <- Ha.
    pose proof (find_active_at _ _ _ Hu Hi Ha) as Hf.
    run. rewrite Hf. simpl.
    eexists _, (clicked now link). split; [reflexivity|]. simpl.
    split; [done|]. split; [by rewrite length_insert|].
    split; [intros j Hj; by rewrite list_lookup_insert_ne|].
    split; [|done].
    apply list_lookup_insert_eq. by eapply lookup_lt_Some.
  - intros Hin. run.
    destruct (list_find (code_is_active code) (db w)) as [[i l]|] eqn:E; [|done].
    apply list_find_Some in E as (Hi & [Hc Ha] & _).
    apply list_elem_of_lookup_2 in Hi.
    rewrite (Hin l Hi Hc) in Ha. done.
Qed.

(** *** Stats and deactivation *)

Lemma deactivate_link_found (w : World) i link :
  list_find (code_is (ShortLink.short_code link)) (db w) = Some (i, link) ->
  deactivate_link (ShortLink.short_code link) w =
    (Ok (stats_response (deactivated link)),
     {| db := <[i := deactivated link]> (db w); rand := rand w |}).
Proof. intros Hf. run. by rewrite Hf. Qed.

Lemma find_code_insert (rows : list ShortLink.t) code i link link' :
  list_find (code_is code) rows = Some (i, link) ->
  ShortLink.short_code link' = code ->
  list_find (code_is code) (<[i := link']> rows) = Some (i, link').
Proof.
  intros (Hi & Hc & Hlt)%list_find_Some Hc'. apply list_find_Some.
  split; [apply list_lookup_insert_eq; by eapply lookup_lt_Some|].
  split; [done|].
  intros j y Hj Hji. rewrite list_lookup_insert_ne in Hj by lia. eauto.
Qed.

(** C7.  Under the unique index, [get_stats] answers with all the columns
    of the row that carries the code, whatever its [active] flag, and
    leaves the world as it was; it raises the 404 exactly when no row
    carries the code; and after a deactivation it still answers, with
    [active = false]. *)
Theorem get_stats_spec (w : World) (code : string) :
  (forall link,
      unique_codes (db w) -> link ∈ db w -> ShortLink.short_code link = code ->
      get_stats code w =
        (Ok {| StatsResponse.short_code := ShortLink.short_code link;
               StatsResponse.target_url := ShortLink.target_url link;
               StatsResponse.created_at := ShortLink.created_at link;
               StatsResponse.click_count := ShortLink.click_count link;
               StatsResponse.last_clicked_at := ShortLink.last_clicked_at link;
               StatsResponse.active := ShortLink.active link;
               StatsResponse.note := ShortLink.note link |}, w))
  /\ (get_stats code w = (Raise NotFound, w) <->
      forall link, link ∈ db w -> ShortLink.short_code link <> code)
  /\ (forall r w',
        deactivate_link code w = (Ok r, w') ->
        exists r', get_stats code w' = (Ok r', w')
                   /\ StatsResponse.active r' = false
                   /\ r' = r).
Proof.
  split; [|split].
  - intros link Hu [i Hi]%list_elem_of_lookup_1 <-.
    pose proof (find_code_at _ _ _ Hu Hi) as Hf. run. by rewrite Hf.
  - rewrite <- find_code_none. run.
    destruct (list_find (code_is code) (db w)) as [[i l]|]; split; done.
  - intros r w' Hd.
    destruct (list_find (code_is code) (db w)) as [[i l]|] eqn:E.
    + pose proof E as (_ & <- & _)%list_find_Some.
      rewrite (deactivate_link_found _ _ _ E) in Hd. injection Hd as <- <-.
      apply (find_code_insert _ _ _ _ (deactivated l)) in E; [|reflexivity].
      eexists. run. rewrite E. done.
    + run. rewrite E in Hd. done.
Qed.


(** *** Listing *)

Lemma insert_desc_perm x rows : Permutation (insert_desc x rows) (x :: rows).
Proof.
  induction rows as [|y rows IH]; simpl; [done|].
  destruct (_ <=? _)%Z; [done|].
  rewrite IH. apply perm_swap.
Qed.

Lemma insert_desc_sorted x rows :
  StronglySorted not_older rows -> StronglySorted not_older (insert_desc x rows).
Proof.
  induction 1 as [|y rows Hs IH Hy]; simpl.
  - repeat constructor.
  - destruct (Z.leb_spec (ShortLink.created_at y) (ShortLink.created_at x)) as [Hle|Hgt].
    + constructor; [by constructor|].
      constructor; [done|].
      eapply Forall_impl; [exact Hy|]. unfold not_older. intros z Hz. lia.
    + constructor; [done|].
      rewrite insert_desc_perm. constructor; [|done].
      unfold not_older. lia.
Qed.

Lemma order_by_created_at_desc_perm rows :
  Permutation (order_by_created_at_desc rows) rows.
Proof.
  induction rows as [|x rows IH]; simpl; [done|].
  rewrite insert_desc_perm. by constructor.
Qed.

Lemma order_by_created_at_desc_sorted rows :
  StronglySorted not_older (order_by_created_at_desc rows).
Proof.
  induction rows as [|x rows IH]; simpl; [constructor|].
  by apply insert_desc_sorted.
Qed.

(** *** Code generation *)

Lemma taken_find rows code :
  taken rows code <-> is_Some (list_find (code_is code) rows).
Proof.
  split.
  - intros (l & Hin & Hc). by eapply find_code_some.
  - intros [[i l] (Hi & Hc & _)%list_find_Some].
    exists l. split; [by eapply list_elem_of_lookup_2|done].
Qed.

Lemma not_taken_find rows code :
  ~ taken rows code <-> list_find (code_is code) rows = None.
Proof. rewrite taken_find, <- eq_None_not_Some. done. Qed.

Lemma join_choices_run chars n rows d c :
  join_choices chars n {| db := rows; rand := {| draws := d; consumed := c |} |} =
    (Ok (chosen chars d c n),
     {| db := rows; rand := {| draws := d; consumed := c + n |} |}).
Proof.
  revert c. induction n as [|n IH]; intros c; simpl.
  - by rewrite Nat.add_0_r.
  - unfold mbind, M_bind, random_choice. simpl. rewrite IH. simpl.
    by rewrite Nat.add_succ_r.
Qed.

Lemma length_chosen chars d start n : String.length (chosen chars d start n) = n.
Proof. revert start. induction n as [|n IH]; intros start; simpl; [done|]. by rewrite IH. Qed.

Lemma candidate_first d c :
  candidate {| draws := d; consumed := c |} 0 = chosen (ascii_letters ++ digits) d c 7.
Proof. unfold candidate. cbn [draws consumed]. f_equal. lia. Qed.

Lemma candidate_shift d c j :
  candidate {| draws := d; consumed := c + 7 |} j
  = candidate {| draws := d; consumed := c |} (S j).
Proof. unfold candidate. cbn [draws consumed]. f_equal. lia. Qed.

Lemma advance_shift d c k :
  advance (7 * k) {| draws := d; consumed := c + 7 |}
  = advance (7 * S k) {| draws := d; consumed := c |}.
Proof. unfold advance. cbn [draws consumed]. f_equal. lia. Qed.

Lemma generate_unique_step n rows d c :
  generate_unique (S n) {| db := rows; rand := {| draws := d; consumed := c |} |} =
    match list_find (code_is (candidate {| draws := d; consumed := c |} 0)) rows with
    | None =>
        (Ok (candidate {| draws := d; consumed := c |} 0),
         {| db := rows; rand := {| draws := d; consumed := c + 7 |} |})
    | Some _ =>
        generate_unique n {| db := rows; rand := {| draws := d; consumed := c + 7 |} |}
    end.
Proof.
  rewrite candidate_first.
  cbn [generate_unique]. unfold mbind, M_bind, generate_short_code.
  rewrite join_choices_run. unfold query_first. cbn [db].
  by destruct (list_find _ rows).
Qed.

(** The loop either stops at the first attempt whose candidate is free,
    or makes all its attempts and raises. *)
Lemma generate_unique_run n rows d c :
  let w := {| db := rows; rand := {| draws := d; consumed := c |} |} in
  (exists k, k < n
     /\ (forall j, j < k -> taken rows (candidate (rand w) j))
     /\ ~ taken rows (candidate (rand w) k)
     /\ generate_unique n w =
          (Ok (candidate (rand w) k), {| db := rows; rand := advance (7 * S k) (rand w) |}))
  \/ ((forall j, j < n -> taken rows (candidate (rand w) j))
      /\ generate_unique n w =
           (Raise GenerationExhausted, {| db := rows; rand := advance (7 * n) (rand w) |})).
Proof.
  cbn [rand]. revert c. induction n as [|n IH]; intros c.
  - right. split; [lia|]. unfold advance. cbn. by rewrite Nat.add_0_r.
  - rewrite generate_unique_step.
    destruct (list_find _ rows) as [found|] eqn:E.
    + assert (taken rows (candidate {| draws := d; consumed := c |} 0)) as H0.
      { apply taken_find. by rewrite E. }
      destruct (IH (c + 7)) as [(k & Hk & Hlt & Hfree & Hrun)|[Hall Hrun]].
      * left. exists (S k). split; [lia|]. split.
        { intros [|j] Hj; [done|]. rewrite <- candidate_shift. apply Hlt. lia. }
        split; [by rewrite <- candidate_shift|].
        by rewrite Hrun, candidate_shift, advance_shift.
      * right. split.
        { intros [|j] Hj; [done|]. rewrite <- candidate_shift. apply Hall. lia. }
        by rewrite Hrun, advance_shift.
    + left. exists 0. split; [lia|]. split; [lia|]. split.
      { by apply not_taken_find. }
      unfold advance. cbn [draws consumed]. do 3 f_equal.
Qed.

(** *** Create *)

Lemma persist_link_fresh payload now code w :
  list_find (code_is code) (db w) = None ->
  let link := new_link (db w) now code
                (CreateLinkRequest.url payload) (CreateLinkRequest.note payload) in
  persist_link payload now code w =
    (Ok (short_link_response link), {| db := db w ++ [link]; rand := rand w |}).
Proof. intros Hf. run. by rewrite Hf. Qed.

Lemma persist_link_taken payload now code w :
  is_Some (list_find (code_is code) (db w)) ->
  persist_link payload now code w = (Raise IntegrityError, w).
Proof. intros [found Hf]. run. by rewrite Hf. Qed.

(** A request with a custom code: one query, then the insert. *)
Lemma create_link_custom payload now w a s :
  CreateLinkRequest.custom_code payload = Some (String a s) ->
  create_link payload now w =
    match list_find (code_is (String a s)) (db w) with
    | Some _ => (Raise CustomCodeTaken, w)
    | None =>
        let link := new_link (db w) now (String a s)
                      (CreateLinkRequest.url payload) (CreateLinkRequest.note payload) in
        (Ok (short_link_response link), {| db := db w ++ [link]; rand := rand w |})
    end.
Proof.
  intros Hc. unfold create_link, choose_short_code. rewrite Hc.
  unfold mbind, M_bind, query_first.
  destruct (list_find _ (db w)) eqn:E; [done|].
  unfold mret, M_ret. by rewrite persist_link_fresh.
Qed.

(** A request without a custom code: the loop, then the insert of the
    first free candidate. *)
Lemma create_link_generated payload now w :
  no_custom_code payload ->
  (exists k, k < 10
     /\ (forall j, j < k -> taken (db w) (candidate (rand w) j))
     /\ ~ taken (db w) (candidate (rand w) k)
     /\ create_link payload now w =
          let link := new_link (db w) now (candidate (rand w) k)
                        (CreateLinkRequest.url payload) (CreateLinkRequest.note payload) in
          (Ok (short_link_response link),
           {| db := db w ++ [link]; rand := advance (7 * S k) (rand w) |}))
  \/ ((forall j, j < 10 -> taken (db w) (candidate (rand w) j))
      /\ create_link payload now w =
           (Raise GenerationExhausted, {| db := db w; rand := advance 70 (rand w) |})).
Proof.
  intros Hn. destruct w as [rows [d c]].
  assert (choose_short_code payload = generate_unique 10) as Hch.
  { unfold choose_short_code. by destruct Hn as [-> | ->]. }
  unfold create_link. rewrite Hch. unfold mbind, M_bind. cbn [db rand].
  destruct (generate_unique_run 10 rows d c)
    as [(k & Hk & Hlt & Hfree & Hrun)|[Hall Hrun]]; cbn [rand] in *.
  - left. exists k. split; [done|]. split; [done|]. split; [done|].
    rewrite Hrun. rewrite persist_link_fresh; [done|].
    by apply not_taken_find.
  - right. split; [done|]. by rewrite Hrun.
Qed.

(** C4.  A create request without a custom code makes at least 1 and at
    most 10 attempts: every attempt draws the 7 characters of a new
    candidate from the random generator and looks the candidate up in the
    table, and an attempt is followed by another one only when its
    candidate was found.  When the candidates of all 10 attempts are
    found in the table, the request raises the 500 "Failed to generate
    unique short code." and the table is as it was. *)
Theorem create_link_generation_bound payload now w :
  no_custom_code payload ->
  (exists attempts,
      1 <= attempts <= 10
      /\ rand (create_link payload now w).2 = advance (7 * attempts) (rand w)
      /\ forall j, S j < attempts -> taken (db w) (candidate (rand w) j))
  /\ ((forall k, k < 10 -> taken (db w) (candidate (rand w) k)) ->
      create_link payload now w =
        (Raise GenerationExhausted, {| db := db w; rand := advance 70 (rand w) |})).
Proof.
  intros Hn.
  destruct (create_link_generated payload now w Hn)
    as [(k & Hk & Hlt & Hfree & Hrun)|[Hall Hrun]]; rewrite Hrun.
  - split.
    + exists (S k). split; [lia|]. split; [done|]. intros j Hj. apply Hlt. lia.
    + intros Hall. destruct Hfree. by apply Hall.
  - split; [|done].
    exists 10. split; [lia|]. split; [done|]. intros j Hj. apply Hall. lia.
Qed.

(** C10.  A create request whose [custom_code] is the empty string is
    served exactly as the same request without [custom_code]: it is never
    answered with the 400 of a taken code, the empty code is not looked
    up or stored, and when one of the 10 candidates of the generation
    loop is free the request succeeds with the first free candidate, a
    code of 7 characters, as the code of the new row. *)
Theorem create_link_empty_custom_code url note now w :
  let payload := {| CreateLinkRequest.url := url;
                    CreateLinkRequest.custom_code := Some "";
                    CreateLinkRequest.note := note |} in
  let without := {| CreateLinkRequest.url := url;
                    CreateLinkRequest.custom_code := None;
                    CreateLinkRequest.note := note |} in
  create_link payload now w = create_link without now w
  /\ (forall e w', create_link payload now w = (Raise e, w') ->
                   e = GenerationExhausted /\ db w' = db w)
  /\ (forall resp w', create_link payload now w = (Ok resp, w') ->
        String.length (ShortLinkResponse.short_code resp) = 7
        /\ (exists k, k < 10 /\ ShortLinkResponse.short_code resp = candidate (rand w) k)
        /\ exists link, db w' = (db w ++ [link])%list
             /\ ShortLink.short_code link = ShortLinkResponse.short_code resp)
  /\ ((exists k, k < 10 /\ ~ taken (db w) (candidate (rand w) k)) ->
      exists resp w', create_link payload now w = (Ok resp, w')).
Proof.
  intros payload without. split; [reflexivity|].
  assert (no_custom_code payload) as Hn by (by right).
  destruct (create_link_generated payload now w Hn)
    as [(k & Hk & Hlt & Hfree & Hrun)|[Hall Hrun]]; rewrite Hrun.
  - split; [intros e w' [=]|]. split.
    + intros resp w' [= <- <-]. split; [exact (length_chosen _ _ _ 7)|].
      split; [by exists k|]. by eexists.
    + intros _. by eexists _, _.
  - split; [intros e w' [= <- <-]; done|]. split; [intros resp w' [=]|].
    intros (k & Hk & Hfree). destruct Hfree. by apply Hall.
Qed.

(** C3 (as the code has it).  The custom code of a create request is
    not checked for its characters or its length: whatever non-empty
    string it is, the handler first queries the table for a row with that
    code, raises the 400 "Custom code already in use." when there is
    one, and otherwise inserts a row whose [short_code] is the string as
    it was given. *)
Theorem create_link_custom_code_unvalidated payload now w a s :
  CreateLinkRequest.custom_code payload = Some (String a s) ->
  (taken (db w) (String a s) ->
     create_link payload now w = (Raise CustomCodeTaken, w))
  /\ (~ taken (db w) (String a s) ->
      exists link,
        create_link payload now w =
          (Ok (short_link_response link), {| db := db w ++ [link]; rand := rand w |})
        /\ ShortLink.short_code link = String a s).
Proof.
  intros Hc. rewrite (create_link_custom _ _ _ _ _ Hc). split.
  - intros [found ->]%taken_find. done.
  - intros ->%not_taken_find. by eexists.
Qed.

(** *** What a request does to the table *)

Lemma candidate_nonempty r k : candidate r k <> "".
Proof.
  intros H. pose proof (length_chosen (ascii_letters ++ digits)
                          (draws r) (consumed r + 7 * k) 7) as Hl.
  unfold candidate in H. rewrite H in Hl. done.
Qed.

Lemma create_link_db_change payload now w :
  db_change now (db w) (db (create_link payload now w).2).
Proof.
  destruct (CreateLinkRequest.custom_code payload) as [[|a s]|] eqn:Hc.
  - destruct (create_link_generated payload now w) as [(k & _ & _ & Hfree & ->)|[_ ->]];
      [by right| |constructor].
    apply db_inserted; [done|apply candidate_nonempty].
  - rewrite (create_link_custom _ _ _ _ _ Hc).
    destruct (list_find _ (db w)) eqn:E; [constructor|].
    apply db_inserted; [by apply not_taken_find|done].
  - destruct (create_link_generated payload now w) as [(k & _ & _ & Hfree & ->)|[_ ->]];
      [by left| |constructor].
    apply db_inserted; [done|apply candidate_nonempty].
Qed.

Lemma serve_db_change r now w : db_change now (db w) (db (serve r now w)).
Proof.
  destruct r as [payload|code|code|skip limit|code]; cbn [serve].
  - apply create_link_db_change.
  - run. destruct (list_find _ (db w)) as [[i l]|] eqn:E; [|constructor].
    apply list_find_Some in E as (Hi & [_ Ha] & _). by apply db_clicked.
  - run. destruct (list_find _ (db w)) as [[i l]|] eqn:E; constructor.
  - run. destruct (sqlite_integer skip && sqlite_integer limit); constructor.
  - run. destruct (list_find _ (db w)) as [[i l]|] eqn:E; [|constructor].
    apply list_find_Some in E as (Hi & _). by apply db_deactivated.
Qed.

(** A property of tables that holds of the empty table and survives
    every change a request can make holds after every sequence of
    requests. *)
Lemma serve_all_invariant (P : list ShortLink.t -> Prop) :
  P [] ->
  (forall now rows rows', db_change now rows rows' -> P rows -> P rows') ->
  forall rs r0, P (db (serve_all rs (startup r0))).
Proof.
  intros Hnil Hstep rs r0. induction rs as [|[r now] rs IH] using rev_ind; [done|].
  unfold serve_all in *. rewrite foldl_snoc. cbn [fst snd].
  eapply Hstep; [apply serve_db_change|exact IH].
Qed.

Lemma db_change_nonempty_codes now rows rows' :
  db_change now rows rows' -> nonempty_codes rows -> nonempty_codes rows'.
Proof.
  unfold nonempty_codes. intros [|code url note Hfree Hne|i l Hi Ha|i l Hi] H; [done|..].
  - apply Forall_app. split; [done|]. by repeat constructor.
  - apply Forall_insert; [done|]. cbn. by eapply (Forall_lookup_1 _ _ _ _ H Hi).
  - apply Forall_insert; [done|]. cbn. by eapply (Forall_lookup_1 _ _ _ _ H Hi).
Qed.

Lemma db_change_unique_codes now rows rows' :
  db_change now rows rows' -> unique_codes rows -> unique_codes rows'.
Proof.
  unfold unique_codes. intros [|code url note Hfree Hne|i l Hi Ha|i l Hi] H; [done|..].
  - rewrite fmap_app. apply NoDup_app. split; [done|]. split; [|apply NoDup_singleton].
    intros c (l & -> & Hl)%list_elem_of_fmap Hin. apply Hfree. exists l. split; [done|].
    cbn in Hin. by apply list_elem_of_singleton in Hin.
  - by rewrite (unique_codes_insert _ _ l).
  - by rewrite (unique_codes_insert _ _ l).
Qed.

Lemma serve_all_nonempty_codes rs r0 : nonempty_codes (db (serve_all rs (startup r0))).
Proof.
  apply (serve_all_invariant nonempty_codes); [constructor|].
  apply db_change_nonempty_codes.
Qed.

Lemma serve_all_unique_codes rs r0 : unique_codes (db (serve_all rs (startup r0))).
Proof.
  apply (serve_all_invariant unique_codes); [constructor|].
  apply db_change_unique_codes.
Qed.

(** A create request that succeeds appended one row, and answered with
    that row. *)
Lemma create_link_ok payload now w resp w' :
  create_link payload now w = (Ok resp, w') ->
  exists code,
    let link := new_link (db w) now code
                  (CreateLinkRequest.url payload) (CreateLinkRequest.note payload) in
    code <> "" /\ ~ taken (db w) code
    /\ resp = short_link_response link
    /\ db w' = (db w ++ [link])%list
    /\ (forall a s, CreateLinkRequest.custom_code payload = Some (String a s) ->
                    code = String a s).
Proof.
  assert (forall k,
    create_link payload now w = (Ok resp, w') ->
    create_link payload now w =
      (let link := new_link (db w) now (candidate (rand w) k)
                     (CreateLinkRequest.url payload) (CreateLinkRequest.note payload) in
       (Ok (short_link_response link),
        {| db := db w ++ [link]; rand := advance (7 * S k) (rand w) |})) ->
    ~ taken (db w) (candidate (rand w) k) ->
    (forall a s, CreateLinkRequest.custom_code payload <> Some (String a s)) ->
    exists code,
      code <> "" /\ ~ taken (db w) code
      /\ resp = short_link_response
                  (new_link (db w) now code
                     (CreateLinkRequest.url payload) (CreateLinkRequest.note payload))
      /\ db w' = (db w ++ [new_link (db w) now code
                     (CreateLinkRequest.url payload) (CreateLinkRequest.note payload)])%list
      /\ (forall a s, CreateLinkRequest.custom_code payload = Some (String a s) ->
                      code = String a s)) as Hgen.
  { intros k H Hrun Hfree Hno. rewrite Hrun in H. cbn zeta in H. injection H as <- <-.
    exists (candidate (rand w) k). split; [apply candidate_nonempty|].
    split; [done|]. split; [done|]. split; [done|]. intros a s Hc. by destruct (Hno a s). }
  intros H. cbn zeta.
  destruct (CreateLinkRequest.custom_code payload) as [[|a s]|] eqn:Hc.
  - destruct (create_link_generated payload now w) as [(k & _ & _ & Hfree & Hrun)|[_ Hrun]];
      [by right| |congruence].
    by apply (Hgen k).
  - rewrite (create_link_custom _ _ _ _ _ Hc) in H.
    destruct (list_find _ (db w)) eqn:E; [done|]. cbn zeta in H. injection H as <- <-.
    exists (String a s). split; [done|]. split; [by apply not_taken_find|].
    split; [done|]. split; [done|]. by intros ? ? [= -> ->].
  - destruct (create_link_generated payload now w) as [(k & _ & _ & Hfree & Hrun)|[_ Hrun]];
      [by left| |congruence].
    by apply (Hgen k).
Qed.

(** C5.  In every state the service reaches from its start, a create
    request whose custom code is the code of a row of the table, active
    or not, raises the 400 "Custom code already in use." and leaves the
    world as it was.  And right after a create request succeeded, in any
    world, a create request with the returned code as its custom code
    raises that 400; the returned code is the custom code of the first
    request when that request had one. *)
Theorem create_link_custom_code_taken :
  (forall rs r0 payload code now link,
      let w := serve_all rs (startup r0) in
      CreateLinkRequest.custom_code payload = Some code ->
      link ∈ db w ->
      ShortLink.short_code link = code ->
      create_link payload now w = (Raise CustomCodeTaken, w))
  /\ (forall w first now resp w' second now',
        create_link first now w = (Ok resp, w') ->
        CreateLinkRequest.custom_code second = Some (ShortLinkResponse.short_code resp) ->
        create_link second now' w' = (Raise CustomCodeTaken, w')
        /\ (forall a s, CreateLinkRequest.custom_code first = Some (String a s) ->
                        ShortLinkResponse.short_code resp = String a s)).
Proof.
  split.
  - intros rs r0 payload code now link w Hc Hin Hl.
    destruct code as [|a s].
    + pose proof (serve_all_nonempty_codes rs r0) as Hne.
      unfold nonempty_codes in Hne. rewrite Forall_forall in Hne.
      by destruct (Hne link Hin).
    + rewrite (create_link_custom _ _ _ _ _ Hc).
      destruct (find_code_some _ _ _ Hin Hl) as [found ->]. done.
  - intros w first now resp w' second now' Hok Hc.
    destruct (create_link_ok _ _ _ _ _ Hok) as (code & Hne & Hfree & -> & Hdb & Hcustom).
    cbn in Hc |- *. split; [|done].
    destruct code as [|a s]; [done|].
    rewrite (create_link_custom _ _ _ _ _ Hc).
    destruct (find_code_some (db w') (String a s)
                (new_link (db w) now (String a s) (CreateLinkRequest.url first)
                   (CreateLinkRequest.note first))) as [found ->]; [|done..].
    rewrite Hdb. apply elem_of_app. right. by apply list_elem_of_singleton.
Qed.

(** *** Click accounting *)

Lemma db_change_click_state now rows rows' :
  db_change now rows rows' -> Forall click_state_ok rows -> Forall click_state_ok rows'.
Proof.
  intros [|code url note Hfree Hne|i l Hi Ha|i l Hi] H; [done|..].
  - apply Forall_app. split; [done|]. apply Forall_singleton.
    unfold click_state_ok, click_invariant. cbn. split; [lia|]. split; [done|lia].
  - apply Forall_insert; [done|].
    destruct (Forall_lookup_1 _ _ _ _ H Hi) as [Hc Hinv].
    unfold click_state_ok, click_invariant. cbn. split; [lia|]. split; [lia|done].
  - apply Forall_insert; [done|]. exact (Forall_lookup_1 _ _ _ _ H Hi).
Qed.

(** C6.  After every sequence of requests served from the start, every
    row has [last_clicked_at] set exactly when its [click_count] is
    positive.  A create request that succeeds appends a row with
    [click_count = 0] and no [last_clicked_at]; and every request, of any
    of the five kinds, served in a table whose rows have a non-negative
    count and satisfy the equivalence leaves a table whose rows do. *)
Theorem click_invariant_always :
  (forall rs r0, Forall click_invariant (db (serve_all rs (startup r0))))
  /\ (forall payload now w resp w',
        create_link payload now w = (Ok resp, w') ->
        exists link,
          db w' = (db w ++ [link])%list
          /\ ShortLink.click_count link = 0%Z
          /\ ShortLink.last_clicked_at link = None
          /\ ShortLinkResponse.click_count resp = 0%Z
          /\ ShortLinkResponse.last_clicked_at resp = None)
  /\ (forall r now w,
        Forall click_state_ok (db w) -> Forall click_state_ok (db (serve r now w))).
Proof.
  split; [|split].
  - intros rs r0. eapply Forall_impl.
    + apply (serve_all_invariant (Forall click_state_ok)); [constructor|].
      apply db_change_click_state.
    + by intros l [_ H].
  - intros payload now w resp w' Hok.
    destruct (create_link_ok _ _ _ _ _ Hok) as (code & _ & _ & -> & -> & _).
    by eexists.
  - intros r now w. apply (db_change_click_state now), serve_db_change.
Qed.

(** *** Concurrent create requests with one custom code *)

Lemma choose_short_code_custom payload w a s :
  CreateLinkRequest.custom_code payload = Some (String a s) ->
  choose_short_code payload w =
    match list_find (code_is (String a s)) (db w) with
    | Some _ => (Raise CustomCodeTaken, w)
    | None => (Ok (String a s), w)
    end.
Proof.
  intros Hc. unfold choose_short_code. rewrite Hc.
  unfold mbind, M_bind, query_first. by destruct (list_find _ (db w)).
Qed.

Lemma only_winner_insert i j t t' tasks :
  only_winner i tasks -> tasks !! j = Some t -> ~ succeeded t -> ~ succeeded t' ->
  only_winner i (<[j := t']> tasks).
Proof.
  intros [(t0 & Hi & Hs) Hrest] Hj Ht Ht'.
  assert (j <> i) by (intros ->; congruence).
  split.
  - exists t0. by rewrite list_lookup_insert_ne.
  - intros k u Hk Hu. destruct (decide (k = j)) as [->|Hkj].
    + rewrite list_lookup_insert_eq in Hu by (by eapply lookup_lt_Some). congruence.
    + rewrite list_lookup_insert_ne in Hu by done. eauto.
Qed.

Lemma step_race_invariant a s st ev :
  race_invariant (String a s) st -> race_invariant (String a s) (step st ev).
Proof.
  destruct st as [tasks w], ev as [i now]. unfold race_invariant, step. cbn [fst snd].
  intros [Hfor Hcases].
  destruct (tasks !! i) as [t|] eqn:Hi; [|done].
  pose proof (Forall_lookup_1 _ _ _ _ Hfor Hi) as Ht.
  destruct t as [payload|payload short_code|r]; cbn [step_task for_code] in *.
  - rewrite (choose_short_code_custom _ _ _ _ Ht).
    destruct Hcases as [[Hfree Hnone]|[Htaken [i0 Hwin]]].
    + pose proof Hfree as ->%not_taken_find. cbn [fst snd]. split.
      * by apply Forall_insert.
      * left. split; [done|]. apply Forall_insert; [done|]. by intros [].
    + pose proof Htaken as [found ->]%taken_find. cbn [fst snd]. split.
      * apply Forall_insert; [done|]. by left.
      * right. split; [done|]. exists i0.
        eapply only_winner_insert; [done..| |]; by intros [].
  - subst short_code.
    destruct Hcases as [[Hfree Hnone]|[Htaken [i0 Hwin]]].
    + rewrite persist_link_fresh by (by apply not_taken_find). cbn [fst snd db]. split.
      * by apply Forall_insert.
      * right. split.
        { eexists. split; [apply elem_of_app; right; by apply list_elem_of_singleton|].
          reflexivity. }
        exists i. split.
        { eexists. split; [apply list_lookup_insert_eq; by eapply lookup_lt_Some|].
          exact I. }
        intros j t Hj Hjt. rewrite list_lookup_insert_ne in Hjt by done.
        pose proof (Forall_lookup_1 _ _ _ _ Hnone Hjt) as Hnf.
        intros Hs. apply Hnf. by destruct t as [| |[]].
    + rewrite persist_link_taken by (by apply taken_find). cbn [fst snd]. split.
      * apply Forall_insert; [done|]. by right.
      * right. split; [done|]. exists i0.
        eapply only_winner_insert; [done..| |]; by intros [].
  - cbn [fst snd]. rewrite list_insert_id by done. by split.
Qed.

Lemma run_schedule_race_invariant a s sched st :
  race_invariant (String a s) st -> race_invariant (String a s) (run_schedule sched st).
Proof.
  revert st. induction sched as [|ev sched IH]; intros st H; [done|].
  cbn. apply IH. by apply step_race_invariant.
Qed.

Lemma run_schedule_length sched st :
  length (run_schedule sched st).1 = length st.1.
Proof.
  revert st. induction sched as [|[i now] sched IH]; intros [tasks w]; [done|].
  cbn [run_schedule foldl]. fold (run_schedule sched (step (tasks, w) (i, now))).
  rewrite IH. unfold step. cbn [fst snd].
  destruct (tasks !! i); [|done].
  destruct (step_task now t w). cbn [fst]. apply length_insert.
Qed.

(** C2 (as the code has it).  [n >= 1] requests that are served at the
    same time ask for the same custom code, which no row carries yet.
    Whatever the order of their round trips, once all of them have
    finished exactly one has succeeded, with that code, and each of the
    others has failed, either with the 400 "Custom code already in use."
    or with the [IntegrityError] of the unique index. *)
Theorem concurrent_create_one_winner
    (payloads : list CreateLinkRequest.t) (a : ascii) (s : string)
    (w : World) (sched : list (nat * datetime)) :
  let code := String a s in
  let final := run_schedule sched (Arrived <$> payloads, w) in
  payloads <> [] ->
  Forall (fun payload => CreateLinkRequest.custom_code payload = Some code) payloads ->
  ~ taken (db w) code ->
  Forall finished final.1 ->
  exists i resp,
    final.1 !! i = Some (Finished (Ok resp))
    /\ ShortLinkResponse.short_code resp = code
    /\ forall j t, j <> i -> final.1 !! j = Some t ->
         failed_with CustomCodeTaken t \/ failed_with IntegrityError t.
Proof.
  intros code final Hne Hall Hfree Hfin.
  assert (race_invariant code (Arrived <$> payloads, w)) as Hinit.
  { split; cbn [fst snd].
    - apply Forall_fmap. eapply Forall_impl; [exact Hall|]. done.
    - left. split; [done|]. apply Forall_fmap, Forall_true. by intros p []. }
  apply (run_schedule_race_invariant _ _ sched) in Hinit.
  fold final in Hinit. destruct Hinit as [Hfor [[_ Hnone]|[_ [i Hwin]]]].
  - exfalso.
    assert (length final.1 = length payloads) as Hlen.
    { unfold final. rewrite run_schedule_length. cbn [fst]. apply length_fmap. }
    destruct (final.1) as [|t ts]; [by destruct payloads|].
    apply Forall_cons_1 in Hfin as [Ht _]. apply Forall_cons_1 in Hnone as [Hnt _]. done.
  - destruct Hwin as [(t & Hi & Hs) Hrest].
    destruct t as [| |[resp|]]; try done.
    exists i, resp. split; [done|]. split.
    + exact (Forall_lookup_1 _ _ _ _ Hfor Hi).
    + intros j u Hj Hu.
      pose proof (Forall_lookup_1 _ _ _ _ Hfor Hu) as Hu1.
      pose proof (Forall_lookup_1 _ _ _ _ Hfin Hu) as Hu2.
      pose proof (Hrest j u Hj Hu) as Hu3.
      destruct u as [| |[r|e]]; try done.
      unfold failed_with. destruct Hu1 as [-> | ->]; eauto.
Qed.

(** ** Further properties of the helpers and the handlers *)

(** *** Helpers *)

Lemma get_elem_of (s : string) k c :
  String.get k s = Some c -> c ∈ list_ascii_of_string s.
Proof.
  revert k. induction s as [|a s IH]; intros k; [done|].
  destruct k as [|k]; cbn.
  - intros [= ->]. apply list_elem_of_here.
  - intros H. apply list_elem_of_further. by eapply IH.
Qed.

Lemma get_is_Some (s : string) k :
  k < String.length s -> is_Some (String.get k s).
Proof.
  revert k. induction s as [|a s IH]; intros k; cbn; [lia|].
  destruct k as [|k]; [by eexists|]. intros H. apply IH. lia.
Qed.

Lemma chosen_chars chars d start n :
  0 < String.length chars ->
  Forall (fun c => c ∈ list_ascii_of_string chars)
         (list_ascii_of_string (chosen chars d start n)).
Proof.
  intros Hpos. revert start. induction n as [|n IH]; intros start; cbn [chosen].
  - constructor.
  - cbn [list_ascii_of_string]. constructor; [|apply IH].
    destruct (get_is_Some chars (d start mod String.length chars)) as [c Hc].
    { apply Nat.mod_upper_bound. lia. }
    rewrite Hc. cbn. by eapply get_elem_of.
Qed.

(** X1.  [generate_short_code] never raises and leaves the table alone:
    it takes exactly [length] numbers from the random generator and
    returns a string of exactly [length] characters, every one of them
    one of the 62 letters and digits. *)
Theorem generate_short_code_spec (length : nat) (w : World) :
  exists code,
    generate_short_code length w =
      (Ok code, {| db := db w; rand := advance length (rand w) |})
    /\ String.length code = length
    /\ Forall alphanumeric (list_ascii_of_string code).
Proof.
  destruct w as [rows [d c]]. unfold generate_short_code.
  rewrite join_choices_run. eexists. split; [reflexivity|].
  split; [apply length_chosen|].
  apply chosen_chars. change (0 < 62). lia.
Qed.

Lemma append_nil (s : string) : ("" ++ s)%string = s.
Proof. reflexivity. Qed.

Lemma append_cons a (p s : string) : (String a p ++ s)%string = String a (p ++ s)%string.
Proof. reflexivity. Qed.

Lemma rstrip_spec c s :
  exists k, s = (rstrip c s ++ repeated c k)%string /\ ~ ends_with c (rstrip c s).
Proof.
  induction s as [|a s (k & Hs & Hend)].
  - exists 0. split; [done|]. intros [[|b p] Hp]; discriminate Hp.
  - cbn [rstrip]. destruct (rstrip c s) as [|b r] eqn:E.
    + rewrite append_nil in Hs. destruct (decide (a = c)) as [->|Hne].
      * exists (S k). split; [by rewrite Hs at 1|].
        intros [[|b p] Hp]; discriminate Hp.
      * exists k. split; [by rewrite Hs at 1|].
        intros [[|b [|b' p]] Hp]; rewrite ?append_cons, ?append_nil in Hp; congruence.
    + exists k. split; [rewrite append_cons; by rewrite Hs at 1|].
      intros [[|a' p] Hp]; rewrite ?append_cons, ?append_nil in Hp; [discriminate Hp|].
      injection Hp as -> Hp. apply Hend. by exists p.
Qed.

(** X2.  The short URL is the base address without its trailing slashes,
    one slash, and the code: whatever number of slashes BASE_SHORT_URL ends
    with, exactly one stands between the base and the code. *)
Theorem build_short_url_spec (code : string) :
  exists prefix k,
    BASE_SHORT_URL = (prefix ++ repeated "/" k)%string
    /\ ~ ends_with "/" prefix
    /\ build_short_url code = (prefix ++ "/" ++ code)%string.
Proof.
  destruct (rstrip_spec "/" BASE_SHORT_URL) as (k & Hs & Hend).
  exists (rstrip "/" BASE_SHORT_URL), k. by split.
Qed.

(** *** Outcomes of the handlers *)

(** X3.  [create_link] never ends with the [IntegrityError] of the unique
    index when requests are served one at a time.  A failure is the 400,
    which only a request with a non-empty custom code that some row
    carries gets, with the world as it was, or the 500, which only a
    request without custom code gets; in both cases the table is as it
    was. *)
Theorem create_link_failures payload now w e w' :
  create_link payload now w = (Raise e, w') ->
  db w' = db w
  /\ ((e = CustomCodeTaken /\ w' = w
       /\ exists a s, CreateLinkRequest.custom_code payload = Some (String a s)
                      /\ taken (db w) (String a s))
      \/ (e = GenerationExhausted /\ no_custom_code payload
          /\ forall k, k < 10 -> taken (db w) (candidate (rand w) k))).
Proof.
  intros H.
  assert (no_custom_code payload ->
          db w' = db w /\ e = GenerationExhausted
          /\ forall k, k < 10 -> taken (db w) (candidate (rand w) k)) as Hgen.
  { intros Hn.
    destruct (create_link_generated payload now w Hn)
      as [(k & _ & _ & _ & Hrun)|[Hall Hrun]]; rewrite Hrun in H.
    - discriminate H.
    - by injection H as <- <-. }
  destruct (CreateLinkRequest.custom_code payload) as [[|a s]|] eqn:Hc.
  - destruct Hgen as (? & ? & ?); [by right|]. split; [done|]. right.
    split; [done|]. split; [by right|done].
  - rewrite (create_link_custom _ _ _ _ _ Hc) in H.
    destruct (list_find _ (db w)) eqn:E; [|discriminate H].
    injection H as <- <-. split; [done|]. left. split; [done|]. split; [done|].
    exists a, s. split; [done|]. apply taken_find. by rewrite E.
  - destruct Hgen as (? & ? & ?); [by left|]. split; [done|]. right.
    split; [done|]. split; [by left|done].
Qed.

(** X4.  [redirect_link], [get_stats] and [deactivate_link] fail in one
    way only: with the 404 "Link not found.", the world as it was, and no
    row (for a redirect: no active row) carrying the code. *)
Theorem lookup_failures (code : string) (now : datetime) (w : World) e w' :
  (redirect_link code now w = (Raise e, w') ->
     e = NotFound /\ w' = w
     /\ forall link, link ∈ db w -> ShortLink.short_code link = code ->
                     ShortLink.active link = false)
  /\ (get_stats code w = (Raise e, w') ->
        e = NotFound /\ w' = w /\ ~ taken (db w) code)
  /\ (deactivate_link code w = (Raise e, w') ->
        e = NotFound /\ w' = w /\ ~ taken (db w) code).
Proof.
  split; [|split]; run.
  - destruct (list_find (code_is_active code) (db w)) as [[i l]|] eqn:E; [done|].
    intros [= <- <-]. split; [done|]. split; [done|].
    intros link Hin Hc. rewrite list_find_None, Forall_forall in E.
    specialize (E link Hin). destruct (ShortLink.active link) eqn:Ha; [|done].
    destruct E. by split.
  - destruct (list_find (code_is code) (db w)) as [[i l]|] eqn:E; [done|].
    intros [= <- <-]. split; [done|]. split; [done|]. by apply not_taken_find.
  - destruct (list_find (code_is code) (db w)) as [[i l]|] eqn:E; [done|].
    intros [= <- <-]. split; [done|]. split; [done|]. by apply not_taken_find.
Qed.


(** *** Requests in a row *)

Lemma find_appended (P : ShortLink.t -> Prop) `{!forall l, Decision (P l)}
    (rows : list ShortLink.t) link :
  (forall l, l ∈ rows -> ~ P l) -> P link ->
  list_find P (rows ++ [link]) = Some (length rows, link).
Proof.
  intros Hno HP. apply list_find_Some. split; [|split; [done|]].
  - by rewrite lookup_app_r, Nat.sub_diag.
  - intros j y Hj Hlt. rewrite lookup_app_l in Hj by done.
    apply Hno. by eapply list_elem_of_lookup_2.
Qed.

(** X6.  Round trip: right after a create request succeeded, a redirect to
    the returned code succeeds and sends to exactly the URL of the
    request, in any table. *)
Theorem create_then_redirect payload now w resp w' now' :
  create_link payload now w = (Ok resp, w') ->
  exists w'',
    redirect_link (ShortLinkResponse.short_code resp) now' w' =
      (Ok {| RedirectResponse.url := CreateLinkRequest.url payload;
             RedirectResponse.status_code := 307 |}, w'').
Proof.
  intros Hok.
  destruct (create_link_ok _ _ _ _ _ Hok) as (code & _ & Hfree & -> & Hdb & _).
  cbn [short_link_response ShortLinkResponse.short_code new_link ShortLink.short_code].
  unfold redirect_link, mbind, M_bind, query_first. rewrite Hdb.
  rewrite (find_appended (code_is_active code)).
  - eexists. reflexivity.
  - intros l Hin [Hc _]. apply Hfree. by exists l.
  - by split.
Qed.

(** X7.  Right after a create request succeeded, [get_stats] of the
    returned code shows the new link: the URL and the note of the request,
    the time of the request as [created_at], no click, and active; and
    the response of the create request showed the same, with the short
    URL built from the code. *)
Theorem create_then_get_stats payload now w resp w' :
  create_link payload now w = (Ok resp, w') ->
  get_stats (ShortLinkResponse.short_code resp) w' =
    (Ok {| StatsResponse.short_code := ShortLinkResponse.short_code resp;
           StatsResponse.target_url := CreateLinkRequest.url payload;
           StatsResponse.created_at := now;
           StatsResponse.click_count := 0;
           StatsResponse.last_clicked_at := None;
           StatsResponse.active := true;
           StatsResponse.note := CreateLinkRequest.note payload |}, w')
  /\ resp =
       {| ShortLinkResponse.short_code := ShortLinkResponse.short_code resp;
          ShortLinkResponse.short_url := build_short_url (ShortLinkResponse.short_code resp);
          ShortLinkResponse.target_url := CreateLinkRequest.url payload;
          ShortLinkResponse.created_at := now;
          ShortLinkResponse.click_count := 0;
          ShortLinkResponse.last_clicked_at := None;
          ShortLinkResponse.active := true;
          ShortLinkResponse.note := CreateLinkRequest.note payload |}.
Proof.
  intros Hok.
  destruct (create_link_ok _ _ _ _ _ Hok) as (code & _ & Hfree & -> & Hdb & _).
  split; [|reflexivity].
  cbn [short_link_response ShortLinkResponse.short_code new_link ShortLink.short_code].
  unfold get_stats, mbind, M_bind, query_first. rewrite Hdb.
  rewrite (find_appended (code_is code)); [reflexivity| |reflexivity].
  intros l Hin Hc. apply Hfree. by exists l.
Qed.

Lemma redirect_link_found (code : string) (now : datetime) (w : World) i link :
  list_find (code_is_active code) (db w) = Some (i, link) ->
  redirect_link code now w =
    (Ok {| RedirectResponse.url := ShortLink.target_url link;
           RedirectResponse.status_code := 307 |},
     {| db := <[i := clicked now link]> (db w); rand := rand w |}).
Proof. intros Hf. run. by rewrite Hf. Qed.

Lemma redirect_link_not_found (code : string) (now : datetime) (w : World) :
  list_find (code_is_active code) (db w) = None ->
  redirect_link code now w = (Raise NotFound, w).
Proof. intros Hf. run. by rewrite Hf. Qed.

Lemma serve_all_cons r now rs w :
  serve_all ((r, now) :: rs) w = serve_all rs (serve r now w).
Proof. reflexivity. Qed.

Lemma evolves_refl link : evolves link link.
Proof. unfold evolves. repeat split; try done; lia. Qed.

Lemma evolves_trans a b c : evolves a b -> evolves b c -> evolves a c.
Proof.
  unfold evolves. intros (?&?&?&?&?&?&?) (?&?&?&?&?&?&?).
  repeat split; try congruence; try lia; auto.
Qed.

Lemma db_change_evolves now rows rows' i link :
  db_change now rows rows' -> rows !! i = Some link ->
  exists link', rows' !! i = Some link' /\ evolves link link'.
Proof.
  intros [|code url note Hfree Hne|j l Hj Ha|j l Hj] Hi.
  - exists link. split; [done|apply evolves_refl].
  - exists link. split; [|apply evolves_refl].
    rewrite lookup_app_l; [done|]. by eapply lookup_lt_Some.
  - destruct (decide (i = j)) as [->|Hij].
    + exists (clicked now link). assert (l = link) as -> by congruence.
      split; [apply list_lookup_insert_eq; by eapply lookup_lt_Some|].
      unfold evolves. cbn. repeat split; try done; lia.
    + exists link. split; [by rewrite list_lookup_insert_ne|apply evolves_refl].
  - destruct (decide (i = j)) as [->|Hij].
    + exists (deactivated link). assert (l = link) as -> by congruence.
      split; [apply list_lookup_insert_eq; by eapply lookup_lt_Some|].
      unfold evolves. cbn. repeat split; try done; lia.
    + exists link. split; [by rewrite list_lookup_insert_ne|apply evolves_refl].
Qed.

Lemma serve_all_evolves rs w i link :
  db w !! i = Some link ->
  exists link', db (serve_all rs w) !! i = Some link' /\ evolves link link'.
Proof.
  revert w link. induction rs as [|[r now] rs IH]; intros w link Hi.
  - exists link. split; [done|apply evolves_refl].
  - rewrite serve_all_cons.
    destruct (db_change_evolves now _ _ _ _ (serve_db_change r now w) Hi)
      as (l1 & H1 & He1).
    destruct (IH _ _ H1) as (l2 & H2 & He2).
    exists l2. split; [done|]. by eapply evolves_trans.
Qed.

(** X9.  No sequence of requests deletes or rewrites a link: a row of the
    table is found at the same place afterwards with the same key, code,
    target URL, creation time and note, with a click count that is not
    smaller, and active only if it was active before. *)
Theorem rows_persist (rs : list (request * datetime)) (w : World) i link :
  db w !! i = Some link ->
  exists link',
    db (serve_all rs w) !! i = Some link'
    /\ ShortLink.id link' = ShortLink.id link
    /\ ShortLink.short_code link' = ShortLink.short_code link
    /\ ShortLink.target_url link' = ShortLink.target_url link
    /\ ShortLink.created_at link' = ShortLink.created_at link
    /\ ShortLink.note link' = ShortLink.note link
    /\ (ShortLink.click_count link <= ShortLink.click_count link')%Z
    /\ (ShortLink.active link = false -> ShortLink.active link' = false).
Proof.
  intros Hi. destruct (serve_all_evolves rs w i link Hi)
    as (link' & Hi' & (?&?&?&?&?&?&Hact)).
  exists link'. repeat split; try done.
  intros Hf. destruct (ShortLink.active link') eqn:E; [|done].
  rewrite Hact in Hf; done.
Qed.

(** X10.  Under the unique index, [n] redirects to the code of an active
    row, served one after the other, add exactly [n] to the row's click
    count and leave the time of the last one as [last_clicked_at]; the
    other rows are as they were. *)
Theorem redirects_count (code : string) (times : list datetime) (w : World) i link :
  unique_codes (db w) ->
  db w !! i = Some link ->
  ShortLink.short_code link = code ->
  ShortLink.active link = true ->
  let w' := serve_all (redirects code times) w in
  exists link',
    db w' !! i = Some link'
    /\ ShortLink.click_count link'
       = (ShortLink.click_count link + Z.of_nat (length times))%Z
    /\ ShortLink.last_clicked_at link'
       = match last times with
         | Some now => Some now
         | None => ShortLink.last_clicked_at link
         end
    /\ (forall j, j <> i -> db w' !! j = db w !! j).
Proof.
  cbv zeta. revert w link. induction times as [|now times IH]; intros w link Hu Hi Hc Ha.
  - exists link. cbn. split; [done|]. split; [lia|]. done.
  - unfold redirects. rewrite fmap_cons, serve_all_cons. cbn [serve].
    subst code. rewrite (redirect_link_found _ _ _ i link) by (by apply find_active_at).
    cbn [snd]. fold (redirects (ShortLink.short_code link) times).
    set (w1 := {| db := <[i:=clicked now link]> (db w); rand := rand w |}).
    destruct (IH w1 (clicked now link)) as (link' & Hi' & Hcount & Hlast & Hrest).
    + unfold unique_codes. cbn [w1 db]. by rewrite (unique_codes_insert _ _ link).
    + cbn [w1 db]. apply list_lookup_insert_eq. by eapply lookup_lt_Some.
    + reflexivity.
    + exact Ha.
    + exists link'. split; [exact Hi'|]. split; [|split].
      * rewrite Hcount. cbn [clicked ShortLink.click_count length]. lia.
      * rewrite Hlast, last_cons. cbn. by destruct (last times).
      * intros j Hj. rewrite (Hrest j Hj). cbn [w1 db].
        by rewrite list_lookup_insert_ne.
Qed.

Lemma serve_all_unique rs w :
  unique_codes (db w) -> unique_codes (db (serve_all rs w)).
Proof.
  revert w. induction rs as [|[r now] rs IH]; intros w Hu; [done|].
  rewrite serve_all_cons. apply IH.
  eapply db_change_unique_codes; [apply serve_db_change|done].
Qed.

Lemma db_change_frozen now rows rows' i link :
  db_change now rows rows' -> rows !! i = Some link -> ShortLink.active link = false ->
  rows' !! i = Some link.
Proof.
  intros [|code url note Hfree Hne|j l Hj Ha|j l Hj] Hi Hoff.
  - done.
  - rewrite lookup_app_l; [done|]. by eapply lookup_lt_Some.
  - rewrite list_lookup_insert_ne; [done|]. intros ->. congruence.
  - destruct (decide (j = i)) as [->|Hji]; [|by rewrite list_lookup_insert_ne].
    assert (l = link) as -> by congruence.
    rewrite list_lookup_insert_eq by (by eapply lookup_lt_Some).
    f_equal. destruct link. cbn in Hoff. by subst.
Qed.

Lemma serve_all_frozen rs w i link :
  db w !! i = Some link -> ShortLink.active link = false ->
  db (serve_all rs w) !! i = Some link.
Proof.
  revert w. induction rs as [|[r now] rs IH]; intros w Hi Hoff; [done|].
  rewrite serve_all_cons. apply IH; [|done].
  by eapply db_change_frozen; [apply serve_db_change|..].
Qed.

(** X8.  Under the unique index, once a code is deactivated no redirect
    to it ever succeeds again and none is counted: whatever requests are
    served after the deactivation, a redirect to the code raises the 404
    and leaves the world as it was, and the row of the code, click count
    and click time included, is still exactly as the deactivation left
    it. *)
Theorem deactivate_then_redirect (code : string) (w : World) r w'
    (rs : list (request * datetime)) (now : datetime) :
  unique_codes (db w) ->
  deactivate_link code w = (Ok r, w') ->
  let w'' := serve_all rs w' in
  redirect_link code now w'' = (Raise NotFound, w'')
  /\ exists i link,
       db w' !! i = Some link
       /\ ShortLink.short_code link = code
       /\ ShortLink.active link = false
       /\ db w'' !! i = Some link.
Proof.
  intros Hu Hd w''.
  assert (exists i link, db w' !! i = Some link /\ ShortLink.short_code link = code
                         /\ ShortLink.active link = false /\ unique_codes (db w'))
    as (i & link & Hi & Hc & Hoff & Hu').
  { run. destruct (list_find (code_is code) (db w)) as [[i l]|] eqn:E; [|done].
    injection Hd as <- <-. cbn [db].
    pose proof E as (Hi & Hc & _)%list_find_Some.
    exists i, (deactivated l). split; [|split; [done|split; [done|]]].
    - apply list_lookup_insert_eq. by eapply lookup_lt_Some.
    - unfold unique_codes. by rewrite (unique_codes_insert _ _ l). }
  pose proof (serve_all_frozen rs w' i link Hi Hoff) as Hi''.
  pose proof (serve_all_unique rs w' Hu') as Hu''. fold w'' in Hi'', Hu''.
  split; [|by exists i, link].
  apply redirect_link_not_found, list_find_None, Forall_forall.
  intros x [j Hj]%list_elem_of_lookup_1 [Hxc Hxa].
  assert (j = i) as ->.
  { eapply (NoDup_lookup _ j i _ Hu''); rewrite list_lookup_fmap.
    - rewrite Hj. cbn. by rewrite Hxc.
    - rewrite Hi''. cbn. by rewrite Hc. }
  congruence.
Qed.

(** X11.  A code is never reissued: a code that some row carries, active
    or not, is carried by a row after every sequence of requests, the
    codes of the table stay pairwise different, and a create request that
    asks for it as custom code is refused with the 400 ever after. *)
Theorem taken_code_stays_taken (rs : list (request * datetime)) (w : World)
    (a : ascii) (s : string) payload now :
  unique_codes (db w) ->
  taken (db w) (String a s) ->
  CreateLinkRequest.custom_code payload = Some (String a s) ->
  let w' := serve_all rs w in
  unique_codes (db w')
  /\ taken (db w') (String a s)
  /\ create_link payload now w' = (Raise CustomCodeTaken, w').
Proof.
  intros Hu (link & [i Hi]%list_elem_of_lookup_1 & Hl) Hc w'.
  split; [by apply serve_all_unique|].
  assert (taken (db w') (String a s)) as Htaken.
  { destruct (serve_all_evolves rs w i link Hi) as (link' & Hi' & (_ & Hcode & _)).
    exists link'. split; [by eapply list_elem_of_lookup_2|congruence]. }
  split; [done|].
  rewrite (create_link_custom _ _ _ _ _ Hc).
  by destruct (proj1 (taken_find _ _) Htaken) as [found ->].
Qed.

(** *** Pages of the listing *)

Lemma sqlite_integer_spec (n : Z) :
  sqlite_integer n = true
  <-> (-9223372036854775808 <= n <= 9223372036854775807)%Z.
Proof. unfold sqlite_integer. rewrite andb_true_iff, !Z.leb_le. done. Qed.

Lemma list_links_in_range (skip limit : Z) (w : World) :
  (-9223372036854775808 <= skip <= 9223372036854775807)%Z ->
  (-9223372036854775808 <= limit <= 9223372036854775807)%Z ->
  list_links skip limit w =
    (Ok {| ListLinksResponse.total := length (db w);
           ListLinksResponse.items :=
             short_link_response <$>
               sql_limit limit (sql_offset skip (order_by_created_at_desc (db w))) |},
     w).
Proof.
  intros Hs%sqlite_integer_spec Hl%sqlite_integer_spec. run. rewrite Hs, Hl. cbn.
  by rewrite (Permutation_length (order_by_created_at_desc_perm (db w))).
Qed.

Lemma list_links_out_of_range (skip limit : Z) (w : World) :
  ~ ((-9223372036854775808 <= skip <= 9223372036854775807)%Z
     /\ (-9223372036854775808 <= limit <= 9223372036854775807)%Z) ->
  list_links skip limit w = (Raise OverflowError, w).
Proof.
  intros Hout. run.
  destruct (sqlite_integer skip && sqlite_integer limit) eqn:E; [|done].
  destruct Hout. apply andb_true_iff in E as [Hs Hl].
  by split; apply sqlite_integer_spec.
Qed.

(** C9 (as the code has it).  For [skip] and [limit] that are signed
    64-bit integers, [list_links] leaves the world as it was and answers
    with [total], the number of rows of the table whatever [skip] and
    [limit] are, and with [items], one item for every row of one page of a
    listing of the table, in the order of the page.  The listing holds
    every row of the table once and has the rows of later [created_at]
    first; the page is what is left of it after the first [skip] rows are
    dropped and at most [limit] rows are kept (a negative [skip] drops
    nothing, a negative [limit] keeps everything); an item carries the
    seven columns of its row that a response has, and as [short_url] the
    base address without its trailing slashes, one slash and the code.
    For a [skip] or a [limit] that is not a signed 64-bit integer,
    [list_links] raises [OverflowError] and leaves the world as it was. *)
Theorem list_links_spec (w : World) (skip limit : Z) :
  ((-9223372036854775808 <= skip <= 9223372036854775807)%Z ->
   (-9223372036854775808 <= limit <= 9223372036854775807)%Z ->
   exists (listing : list ShortLink.t) (prefix : string) (k : nat),
     Permutation listing (db w)
     /\ StronglySorted
          (fun a b => (ShortLink.created_at b <= ShortLink.created_at a)%Z) listing
     /\ BASE_SHORT_URL = (prefix ++ repeated "/" k)%string
     /\ ~ ends_with "/" prefix
     /\ list_links skip limit w =
          (Ok {| ListLinksResponse.total := length (db w);
                 ListLinksResponse.items :=
                   (fun link =>
                      {| ShortLinkResponse.short_code := ShortLink.short_code link;
                         ShortLinkResponse.short_url :=
                           (prefix ++ "/" ++ ShortLink.short_code link)%string;
                         ShortLinkResponse.target_url := ShortLink.target_url link;
                         ShortLinkResponse.created_at := ShortLink.created_at link;
                         ShortLinkResponse.click_count := ShortLink.click_count link;
                         ShortLinkResponse.last_clicked_at := ShortLink.last_clicked_at link;
                         ShortLinkResponse.active := ShortLink.active link;
                         ShortLinkResponse.note := ShortLink.note link |})
                   <$> (if (limit <? 0)%Z then drop (Z.to_nat skip) listing
                        else take (Z.to_nat limit) (drop (Z.to_nat skip) listing)) |},
           w))
  /\ (~ ((-9223372036854775808 <= skip <= 9223372036854775807)%Z
         /\ (-9223372036854775808 <= limit <= 9223372036854775807)%Z) ->
      list_links skip limit w = (Raise OverflowError, w)).
Proof.
  split; [|apply list_links_out_of_range].
  intros Hs Hl. destruct (rstrip_spec "/" BASE_SHORT_URL) as (k & Hbase & Hend).
  exists (order_by_created_at_desc (db w)), (rstrip "/" BASE_SHORT_URL), k.
  split; [apply order_by_created_at_desc_perm|].
  split; [apply order_by_created_at_desc_sorted|].
  split; [exact Hbase|]. split; [exact Hend|].
  by rewrite list_links_in_range.
Qed.

(** X12.  [list_links] fails in one way only: with the [OverflowError]
    of the driver, the world as it was, when [skip] or [limit] is not a
    signed 64-bit integer.  For [skip] and [limit] that are, it succeeds
    and the number of items of the page is what is left of the table
    after [skip] rows, cut down to [limit] when [limit] is not negative: a
    page never holds more than [limit] items, a page that starts at or
    after the end of the table is empty, and [total] is the same on every
    page. *)
Theorem list_links_page_size (skip limit : Z) (w : World) :
  ((-9223372036854775808 <= skip <= 9223372036854775807)%Z ->
   (-9223372036854775808 <= limit <= 9223372036854775807)%Z ->
   exists r,
     list_links skip limit w = (Ok r, w)
     /\ ListLinksResponse.total r = length (db w)
     /\ length (ListLinksResponse.items r) =
          (let rest := length (db w) - Z.to_nat skip in
           if (limit <? 0)%Z then rest else Nat.min (Z.to_nat limit) rest))
  /\ (forall e w',
        list_links skip limit w = (Raise e, w') ->
        e = OverflowError /\ w' = w
        /\ ~ ((-9223372036854775808 <= skip <= 9223372036854775807)%Z
              /\ (-9223372036854775808 <= limit <= 9223372036854775807)%Z)).
Proof.
  split.
  - intros Hs Hl. eexists. split; [by apply list_links_in_range|]. split; [reflexivity|].
    cbn [ListLinksResponse.items]. rewrite length_fmap. unfold sql_limit, sql_offset.
    destruct (limit <? 0)%Z; rewrite ?length_take, length_drop;
      by rewrite (Permutation_length (order_by_created_at_desc_perm (db w))).
  - intros e w' H.
    destruct (decide ((-9223372036854775808 <= skip <= 9223372036854775807)%Z
                      /\ (-9223372036854775808 <= limit <= 9223372036854775807)%Z))
      as [[Hs Hl]|Hout].
    + rewrite list_links_in_range in H by done. discriminate H.
    + rewrite list_links_out_of_range in H by done. by injection H as <- <-.
Qed.

(** X13.  Pages fit together: for [skip], [limit1] and [limit2] that are
    not negative and such that [skip + limit1] and [limit1 + limit2] are
    still signed 64-bit integers, the page of [limit1] items at [skip]
    followed by the page of [limit2] items at [skip + limit1] is the page
    of [limit1 + limit2] items at [skip]; no link is listed twice or left
    out between two consecutive pages of an unchanged table. *)
Theorem list_links_pages_compose (skip limit1 limit2 : Z) (w : World) :
  (0 <= skip)%Z -> (0 <= limit1)%Z -> (0 <= limit2)%Z ->
  (skip + limit1 <= 9223372036854775807)%Z ->
  (limit1 + limit2 <= 9223372036854775807)%Z ->
  exists r1 r2 r,
    list_links skip limit1 w = (Ok r1, w)
    /\ list_links (skip + limit1) limit2 w = (Ok r2, w)
    /\ list_links skip (limit1 + limit2) w = (Ok r, w)
    /\ (ListLinksResponse.items r1 ++ ListLinksResponse.items r2)%list
       = ListLinksResponse.items r.
Proof.
  intros Hs H1 H2 Hmax1 Hmax2. eexists _, _, _.
  split; [apply list_links_in_range; lia|].
  split; [apply list_links_in_range; lia|].
  split; [apply list_links_in_range; lia|].
  cbn [ListLinksResponse.items]. unfold sql_limit, sql_offset.
  destruct (Z.ltb_spec limit1 0); [lia|].
  destruct (Z.ltb_spec limit2 0); [lia|].
  destruct (Z.ltb_spec (limit1 + limit2) 0); [lia|].
  rewrite <- fmap_app. f_equal.
  rewrite !Z2Nat.inj_add by lia. rewrite <- drop_drop. apply take_take_drop.
Qed.

(** *** Interleaved create requests *)

Lemma choose_short_code_db payload w : db (choose_short_code payload w).2 = db w.
Proof.
  assert (forall n, db (generate_unique n w).2 = db w) as Hgen.
  { intros n. destruct w as [rows [d c]].
    by destruct (generate_unique_run n rows d c) as [(k & _ & _ & _ & ->)|[_ ->]]. }
  unfold choose_short_code.
  destruct (CreateLinkRequest.custom_code payload) as [[|a s]|]; [apply Hgen| |apply Hgen].
  unfold mbind, M_bind, query_first. by destruct (list_find _ (db w)).
Qed.

Lemma persist_link_unique payload now code w :
  unique_codes (db w) -> unique_codes (db (persist_link payload now code w).2).
Proof.
  intros Hu. destruct (list_find (code_is code) (db w)) as [found|] eqn:E.
  - rewrite persist_link_taken; [done|by rewrite E].
  - rewrite persist_link_fresh by done. cbn [snd db]. unfold unique_codes in *.
    rewrite fmap_app. apply NoDup_app. split; [done|]. split; [|apply NoDup_singleton].
    intros c (l & -> & Hl)%list_elem_of_fmap Hin.
    apply list_elem_of_singleton in Hin. cbn in Hin.
    rewrite find_code_none in E. by apply (E l).
Qed.

Lemma step_unique st ev : unique_codes (db st.2) -> unique_codes (db (step st ev).2).
Proof.
  destruct st as [tasks w], ev as [i now]. unfold step. cbn [fst snd]. intros Hu.
  destruct (tasks !! i) as [[payload|payload code|r]|]; cbn [step_task snd]; [| |done..].
  - pose proof (choose_short_code_db payload w) as Hdb.
    destruct (choose_short_code payload w) as [[c|e] w1]; cbn [snd] in *; by rewrite Hdb.
  - pose proof (persist_link_unique payload now code w Hu) as Hp.
    by destruct (persist_link payload now code w).
Qed.

(** X14.  However the round trips of any number of create requests, with
    or without custom codes, interleave, the codes of the table stay
    pairwise different: the unique index, not the check of the handler,
    is what keeps them so. *)
Theorem run_schedule_unique (sched : list (nat * datetime)) (st : list task * World) :
  unique_codes (db st.2) -> unique_codes (db (run_schedule sched st).2).
Proof.
  revert st. induction sched as [|ev sched IH]; intros st Hu; [done|].
  cbn. apply IH. by apply step_unique.
Qed.

End App.

(** ** The properties at the sample data *)

Lemma two_links_unique : unique_codes (db two_links).
Proof. unfold unique_codes. cbn. by compute_done. Defined.

Lemma redirect_link_spec_witness :
  (exists w' link',
      redirect_link "promo1" 30%Z two_links =
        (Ok {| RedirectResponse.url := "https://a.example/x";
               RedirectResponse.status_code := 307 |}, w')
      /\ db w' !! 0 = Some link'
      /\ db w' !! 1 = Some retired
      /\ ShortLink.click_count link' = 1%Z
      /\ ShortLink.last_clicked_at link' = Some 30%Z)
  /\ redirect_link "old" 30%Z two_links = (Raise NotFound, two_links)
  /\ redirect_link "nope" 30%Z two_links = (Raise NotFound, two_links).
Proof.
  split; [|split].
  - destruct (proj1 (redirect_link_spec two_links "promo1" 30%Z) 0 promo1)
      as (w' & link' & Hr & _ & _ & Hrest & Hi & Hc & Hl & _);
      [exact two_links_unique|reflexivity..|].
    exists w', link'. split; [exact Hr|]. split; [exact Hi|].
    split; [apply (Hrest 1); discriminate|]. split; [exact Hc|exact Hl].
  - apply (proj2 (redirect_link_spec two_links "old" 30%Z)).
    intros link Hin Hc. cbn in Hin.
    apply elem_of_cons in Hin as [->|Hin]; [discriminate Hc|].
    apply elem_of_cons in Hin as [->|Hin]; [reflexivity|].
    by apply elem_of_nil in Hin.
  - apply (proj2 (redirect_link_spec two_links "nope" 30%Z)).
    intros link Hin Hc. cbn in Hin.
    apply elem_of_cons in Hin as [->|Hin]; [discriminate Hc|].
    apply elem_of_cons in Hin as [->|Hin]; [discriminate Hc|].
    by apply elem_of_nil in Hin.
Defined.

Lemma get_stats_spec_witness :
  get_stats "old" two_links =
    (Ok {| StatsResponse.short_code := "old";
           StatsResponse.target_url := "https://b.example/y";
           StatsResponse.created_at := 20%Z;
           StatsResponse.click_count := 2%Z;
           StatsResponse.last_clicked_at := Some 25%Z;
           StatsResponse.active := false;
           StatsResponse.note := Some "spring" |}, two_links)
  /\ get_stats "nope" two_links = (Raise NotFound, two_links)
  /\ exists r w' r',
       deactivate_link "promo1" two_links = (Ok r, w')
       /\ get_stats "promo1" w' = (Ok r', w')
       /\ StatsResponse.active r' = false.
Proof.
  split; [|split].
  - apply (proj1 (get_stats_spec two_links "old") retired);
      [exact two_links_unique| |reflexivity].
    cbn. apply list_elem_of_further, list_elem_of_here.
  - apply (proj1 (proj2 (get_stats_spec two_links "nope"))).
    intros link Hin. cbn in Hin.
    apply elem_of_cons in Hin as [->|Hin]; [discriminate|].
    apply elem_of_cons in Hin as [->|Hin]; [discriminate|].
    by apply elem_of_nil in Hin.
  - destruct (proj2 (proj2 (get_stats_spec two_links "promo1")) _ _ eq_refl)
      as (r' & Hs & Ha & _).
    eexists _, _, r'. split; [vm_compute; reflexivity|]. split; [exact Hs|exact Ha].
Defined.


Lemma create_link_generation_bound_witness :
  no_custom_code plain_request
  /\ (forall k, k < 10 -> taken (db crowded) (candidate (rand crowded) k))
  /\ (exists attempts,
         1 <= attempts <= 10
         /\ rand (create_link localhost plain_request 40%Z crowded).2
            = advance (7 * attempts) (rand crowded))
  /\ create_link localhost plain_request 40%Z crowded =
       (Raise GenerationExhausted, {| db := db crowded; rand := advance 70 (rand crowded) |}).
Proof.
  assert (no_custom_code plain_request) as Hn by (by left).
  assert (forall k, k < 10 -> taken (db crowded) (candidate (rand crowded) k)) as Hall.
  { intros k Hk.
    do 10 (destruct k as [|k];
           [exists aaaaaaa; split; [apply list_elem_of_here|reflexivity]|]).
    lia. }
  destruct (create_link_generation_bound localhost plain_request 40%Z crowded Hn)
    as [(attempts & Hb & Hr & _) Hex].
  split; [exact Hn|]. split; [exact Hall|]. split; [|exact (Hex Hall)].
  exists attempts. split; [exact Hb|exact Hr].
Defined.

Lemma create_link_empty_custom_code_witness :
  let payload := {| CreateLinkRequest.url := "https://example.com/page";
                    CreateLinkRequest.custom_code := Some "";
                    CreateLinkRequest.note := None |} in
  create_link localhost payload 40%Z two_links = create_link localhost plain_request 40%Z two_links
  /\ exists resp w',
       create_link localhost payload 40%Z two_links = (Ok resp, w')
       /\ ShortLinkResponse.short_code resp = "abcdefg"
       /\ String.length (ShortLinkResponse.short_code resp) = 7.
Proof.
  destruct (create_link_empty_custom_code localhost
              "https://example.com/page" None 40%Z two_links)
    as (Heq & _ & Hok & _).
  split; [exact Heq|].
  destruct (Hok _ _ eq_refl) as (Hlen & _ & _).
  eexists _, _. split; [vm_compute; reflexivity|]. split; [reflexivity|exact Hlen].
Defined.

Lemma create_link_custom_code_unvalidated_witness :
  create_link localhost promo_request 40%Z two_links = (Raise CustomCodeTaken, two_links)
  /\ exists link,
       create_link localhost odd_request 40%Z two_links =
         (Ok (short_link_response localhost link),
          {| db := db two_links ++ [link]; rand := rand two_links |})
       /\ ShortLink.short_code link = odd_code.
Proof.
  split.
  - apply (proj1 (create_link_custom_code_unvalidated localhost
                    promo_request 40%Z two_links _ _ eq_refl)).
    exists promo1. split; [apply list_elem_of_here|reflexivity].
  - apply (proj2 (create_link_custom_code_unvalidated localhost
                    odd_request 40%Z two_links _ _ eq_refl)).
    intros (link & Hin & Hc). cbn in Hin.
    apply elem_of_cons in Hin as [->|Hin]; [discriminate|].
    apply elem_of_cons in Hin as [->|Hin]; [discriminate|].
    by apply elem_of_nil in Hin.
Defined.

(** C3, as the spec states it, fails: a custom code of 56 characters with
    blanks, a slash and punctuation is not rejected; the request succeeds
    and the row is in the table. *)
Lemma create_link_accepts_malformed_custom_code :
  spec_well_formed_custom_code odd_code = false
  /\ exists link,
       create_link localhost odd_request 40%Z (startup counting) =
         (Ok (short_link_response localhost link), {| db := [link]; rand := counting |})
       /\ ShortLink.short_code link = odd_code.
Proof.
  split; [reflexivity|].
  exists (new_link [] 40%Z odd_code "https://a.example/x" None).
  split; [vm_compute; reflexivity|reflexivity].
Defined.

Lemma create_link_custom_code_taken_witness :
  (let w := serve_all localhost [(CreateLink promo_request, 10%Z);
                                 (DeactivateLink "promo1", 20%Z)] (startup counting) in
   create_link localhost promo_request 40%Z w = (Raise CustomCodeTaken, w))
  /\ exists resp w',
       create_link localhost promo_request 10%Z (startup counting) = (Ok resp, w')
       /\ create_link localhost promo_request 40%Z w' = (Raise CustomCodeTaken, w')
       /\ ShortLinkResponse.short_code resp = "promo1".
Proof.
  split.
  - apply (proj1 (create_link_custom_code_taken localhost)
             [(CreateLink promo_request, 10%Z); (DeactivateLink "promo1", 20%Z)]
             counting promo_request "promo1" 40%Z
             (deactivated (new_link [] 10%Z "promo1" "https://a.example/x" None)));
      [reflexivity| |reflexivity].
    vm_compute. apply list_elem_of_here.
  - destruct (proj2 (create_link_custom_code_taken localhost)
                (startup counting) promo_request 10%Z _ _ promo_request 40%Z
                eq_refl eq_refl) as [Hsecond Hcode].
    eexists _, _. split; [vm_compute; reflexivity|].
    split; [exact Hsecond|]. exact (Hcode _ _ eq_refl).
Defined.

Lemma click_invariant_always_witness :
  Forall click_invariant
    (db (serve_all localhost
           [(CreateLink promo_request, 10%Z); (RedirectLink "promo1", 20%Z);
            (RedirectLink "promo1", 30%Z); (DeactivateLink "promo1", 40%Z);
            (RedirectLink "promo1", 50%Z)] (startup counting)))
  /\ (exists resp w' link,
        create_link localhost promo_request 10%Z (startup counting) = (Ok resp, w')
        /\ db w' = [link]
        /\ ShortLink.click_count link = 0%Z
        /\ ShortLink.last_clicked_at link = None)
  /\ Forall click_state_ok (db two_links)
  /\ Forall click_state_ok (db (serve localhost (RedirectLink "promo1") 30%Z two_links)).
Proof.
  destruct (click_invariant_always localhost) as (Hall & Hnew & Hstep).
  assert (Forall click_state_ok (db two_links)) as Hok.
  { repeat constructor; cbn; try lia; done. }
  split; [apply Hall|]. split; [|split; [exact Hok|by apply Hstep]].
  destruct (Hnew promo_request 10%Z (startup counting) _ _ eq_refl)
    as (link & Hdb & Hc & Hl & _).
  eexists _, _, link. split; [vm_compute; reflexivity|].
  split; [exact Hdb|]. split; [exact Hc|exact Hl].
Defined.

Lemma concurrent_create_one_winner_witness :
  let final := run_schedule localhost racing_schedule
                 (Arrived <$> [promo_request; promo_request], startup counting) in
  Forall finished final.1
  /\ exists i resp,
       final.1 !! i = Some (Finished (Ok resp))
       /\ ShortLinkResponse.short_code resp = "promo1"
       /\ forall j t, j <> i -> final.1 !! j = Some t ->
            failed_with CustomCodeTaken t \/ failed_with IntegrityError t.
Proof.
  assert (Forall finished
            (run_schedule localhost racing_schedule
               (Arrived <$> [promo_request; promo_request], startup counting)).1) as Hfin.
  { vm_compute. repeat constructor. }
  split; [exact Hfin|].
  apply (concurrent_create_one_winner localhost
           [promo_request; promo_request] "p"%char "romo1" (startup counting)
           racing_schedule); [discriminate|by repeat constructor| |exact Hfin].
  intros (link & Hin & _). by apply elem_of_nil in Hin.
Defined.

(** C2, as the spec states it, fails: when both requests query before
    either commits, the second commit is refused by the unique index, and
    the second request ends with an [IntegrityError], not with the 400 of
    a taken code. *)
Lemma concurrent_create_counterexample :
  let final := run_schedule localhost racing_schedule
                 (Arrived <$> [promo_request; promo_request], startup counting) in
  Forall finished final.1
  /\ final.1 !! 1 = Some (Finished (Raise IntegrityError))
  /\ ~ spec_one_wins_rest_taken final.1.
Proof.
  cbv zeta.
  assert ((run_schedule localhost racing_schedule
             (Arrived <$> [promo_request; promo_request], startup counting)).1
          = [Finished (Ok (short_link_response localhost
                             (new_link [] 3%Z "promo1" "https://a.example/x" None)));
             Finished (Raise IntegrityError)]) as ->.
  { vm_compute. reflexivity. }
  split; [repeat constructor|]. split; [reflexivity|].
  intros (i & [(t & Hi & Hs) _] & Hfail).
  destruct i as [|[|i]].
  - specialize (Hfail 1 _ ltac:(discriminate) eq_refl). discriminate Hfail.
  - injection Hi as <-. exact Hs.
  - discriminate Hi.
Qed.

(** When the second request starts after the first one finished, it does
    get the 400. *)
Example sequential_create_second_taken :
  (run_schedule localhost [(0, 1%Z); (0, 2%Z); (1, 3%Z); (1, 4%Z)]
     (Arrived <$> [promo_request; promo_request], startup counting)).1 !! 1
  = Some (Finished (Raise CustomCodeTaken)).
Proof. vm_compute. reflexivity. Qed.

(** ** The handlers at work *)

Example build_short_url_strips_slashes :
  build_short_url "https://lnk.workpent.com//" "abc" = "https://lnk.workpent.com/abc".
Proof. reflexivity. Qed.

Example generate_short_code_counting :
  generate_short_code 7 (startup counting) =
    (Ok "abcdefg", {| db := []; rand := {| draws := draws counting; consumed := 7 |} |}).
Proof. reflexivity. Qed.

Example generate_short_code_wraps :
  (generate_short_code 7 {| db := []; rand := {| draws := draws counting; consumed := 58 |} |}).1
  = Ok "6789abc".
Proof. reflexivity. Qed.

(** The scenario of the spec: create "promo1", redirect twice, deactivate. *)
Example promo1_scenario :
  let w1 := serve localhost (CreateLink promo_request) 10%Z (startup counting) in
  let w2 := serve localhost (RedirectLink "promo1") 20%Z w1 in
  let w3 := serve localhost (RedirectLink "promo1") 30%Z w2 in
  let w4 := serve localhost (DeactivateLink "promo1") 40%Z w3 in
  (ShortLinkResponse.short_url <$> (create_link localhost promo_request 10%Z (startup counting)).1
     = Ok "http://localhost:9500/promo1" :> result string)
  /\ (get_stats "promo1" w1).1 = Ok (stats_response promo1)
  /\ (redirect_link "promo1" 20%Z w1).1
     = Ok {| RedirectResponse.url := "https://a.example/x";
             RedirectResponse.status_code := 307 |}
  /\ (StatsResponse.click_count <$> (get_stats "promo1" w3).1 = Ok 2%Z :> result Z)
  /\ (StatsResponse.last_clicked_at <$> (get_stats "promo1" w3).1
     = Ok (Some 30%Z) :> result (option datetime))
  /\ (redirect_link "promo1" 50%Z w4).1 = Raise NotFound
  /\ (StatsResponse.active <$> (get_stats "promo1" w4).1 = Ok false :> result bool).
Proof. vm_compute. repeat split. Qed.

Example list_links_pages :
  let w := {| db := [aaaaaaa; promo1; retired]; rand := counting |} in
  (ListLinksResponse.total <$> (list_links localhost 1 1 w).1 = Ok 3 :> result nat)
  /\ (fmap (M := list) ShortLinkResponse.short_code
        <$> (ListLinksResponse.items <$> (list_links localhost 0 50 w).1)
      = Ok ["old"; "promo1"; "aaaaaaa"] :> result (list string))
  /\ (fmap (M := list) ShortLinkResponse.short_code
        <$> (ListLinksResponse.items <$> (list_links localhost 1 1 w).1)
      = Ok ["promo1"] :> result (list string)).
Proof. vm_compute. repeat split. Qed.

Lemma list_links_spec_witness :
  (exists r, list_links localhost 1 1 two_links = (Ok r, two_links)
             /\ ListLinksResponse.total r = 2)
  /\ list_links localhost 0 (-9223372036854775809) two_links
     = (Raise OverflowError, two_links).
Proof.
  split.
  - destruct (proj1 (list_links_spec localhost two_links 1 1))
      as (listing & prefix & k & _ & _ & _ & _ & Hrun); [lia..|].
    eexists. split; [exact Hrun|reflexivity].
  - apply (proj2 (list_links_spec localhost two_links 0 (-9223372036854775809))). lia.
Defined.

(** C9, as the spec states it, fails: a [skip] of 2^63 is an offset the
    handler accepts, and the listing is not returned; the driver raises
    [OverflowError]. *)
Lemma list_links_overflow_counterexample :
  list_links localhost 9223372036854775808 50 two_links = (Raise OverflowError, two_links)
  /\ list_links localhost 0 9223372036854775808 two_links = (Raise OverflowError, two_links).
Proof. split; vm_compute; reflexivity. Qed.

(** ** The further properties at the sample data *)

Lemma create_link_failures_witness :
  create_link localhost promo_request 40%Z two_links = (Raise CustomCodeTaken, two_links)
  /\ (exists a s, CreateLinkRequest.custom_code promo_request = Some (String a s)
                  /\ taken (db two_links) (String a s))
  /\ create_link localhost plain_request 40%Z crowded =
       (Raise GenerationExhausted, {| db := db crowded; rand := advance 70 (rand crowded) |})
  /\ (forall k, k < 10 -> taken (db crowded) (candidate (rand crowded) k)).
Proof.
  assert (create_link localhost promo_request 40%Z two_links
          = (Raise CustomCodeTaken, two_links)) as H1 by (vm_compute; reflexivity).
  assert (create_link localhost plain_request 40%Z crowded
          = (Raise GenerationExhausted,
             {| db := db crowded; rand := advance 70 (rand crowded) |})) as H2
    by (vm_compute; reflexivity).
  split; [exact H1|]. split; [|split; [exact H2|]].
  - destruct (create_link_failures localhost _ _ _ _ _ H1)
      as [_ [(_ & _ & Hex)|(Hbad & _)]]; [exact Hex|discriminate Hbad].
  - destruct (create_link_failures localhost _ _ _ _ _ H2)
      as [_ [(Hbad & _)|(_ & _ & Hall)]]; [discriminate Hbad|exact Hall].
Defined.

Lemma lookup_failures_witness :
  (forall link, link ∈ db two_links -> ShortLink.short_code link = "old" ->
                ShortLink.active link = false)
  /\ ~ taken (db two_links) "nope".
Proof.
  destruct (lookup_failures "old" 40%Z two_links NotFound two_links) as (Hr & _ & _).
  destruct (lookup_failures "nope" 40%Z two_links NotFound two_links) as (_ & Hs & Hd).
  split.
  - apply Hr. vm_compute. reflexivity.
  - apply Hs. vm_compute. reflexivity.
Defined.


Lemma create_then_redirect_witness :
  exists w'',
    redirect_link "promo1" 20%Z (create_link localhost promo_request 10%Z (startup counting)).2 =
      (Ok {| RedirectResponse.url := "https://a.example/x";
             RedirectResponse.status_code := 307 |}, w'').
Proof.
  apply (create_then_redirect localhost promo_request 10%Z (startup counting)
           (short_link_response localhost
              (new_link [] 10%Z "promo1" "https://a.example/x" None))
           _ 20%Z).
  vm_compute. reflexivity.
Defined.

Lemma create_then_get_stats_witness :
  get_stats "promo1" (create_link localhost promo_request 10%Z (startup counting)).2 =
    (Ok {| StatsResponse.short_code := "promo1";
           StatsResponse.target_url := "https://a.example/x";
           StatsResponse.created_at := 10%Z;
           StatsResponse.click_count := 0;
           StatsResponse.last_clicked_at := None;
           StatsResponse.active := true;
           StatsResponse.note := None |},
     (create_link localhost promo_request 10%Z (startup counting)).2).
Proof.
  apply (proj1 (create_then_get_stats localhost promo_request 10%Z (startup counting)
                  (short_link_response localhost
                     (new_link [] 10%Z "promo1" "https://a.example/x" None))
                  _ ltac:(vm_compute; reflexivity))).
Defined.

Lemma deactivate_then_redirect_witness :
  let w' := (deactivate_link "promo1" two_links).2 in
  let w'' := serve_all localhost
               [(CreateLink plain_request, 45%Z); (RedirectLink "promo1", 46%Z);
                (DeactivateLink "old", 47%Z)] w' in
  redirect_link "promo1" 50%Z w'' = (Raise NotFound, w'')
  /\ db w'' !! 0 = Some (deactivated promo1).
Proof.
  destruct (deactivate_then_redirect localhost "promo1" two_links
              (stats_response (deactivated promo1))
              (deactivate_link "promo1" two_links).2
              [(CreateLink plain_request, 45%Z); (RedirectLink "promo1", 46%Z);
               (DeactivateLink "old", 47%Z)] 50%Z two_links_unique
              ltac:(vm_compute; reflexivity)) as [Hr _].
  split; [exact Hr|]. vm_compute. reflexivity.
Defined.

Lemma rows_persist_witness :
  exists link',
    db (serve_all localhost
          [(RedirectLink "promo1", 30%Z); (DeactivateLink "promo1", 40%Z);
           (CreateLink plain_request, 50%Z)] two_links) !! 0 = Some link'
    /\ ShortLink.short_code link' = "promo1"
    /\ ShortLink.target_url link' = "https://a.example/x"
    /\ (0 <= ShortLink.click_count link')%Z.
Proof.
  destruct (rows_persist localhost
              [(RedirectLink "promo1", 30%Z); (DeactivateLink "promo1", 40%Z);
               (CreateLink plain_request, 50%Z)] two_links 0 promo1 eq_refl)
    as (link' & Hi & _ & Hc & Hu & _ & _ & Hn & _).
  exists link'. split; [exact Hi|]. split; [exact Hc|]. split; [exact Hu|exact Hn].
Defined.

Lemma redirects_count_witness :
  exists link',
    db (serve_all localhost (redirects "promo1" [20%Z; 30%Z; 40%Z]) two_links) !! 0
      = Some link'
    /\ ShortLink.click_count link' = 3%Z
    /\ ShortLink.last_clicked_at link' = Some 40%Z.
Proof.
  destruct (redirects_count localhost "promo1" [20%Z; 30%Z; 40%Z] two_links 0 promo1
              two_links_unique eq_refl eq_refl eq_refl)
    as (link' & Hi & Hc & Hl & _).
  exists link'. split; [exact Hi|]. split; [exact Hc|exact Hl].
Defined.

Lemma taken_code_stays_taken_witness :
  let payload := {| CreateLinkRequest.url := "https://d.example/";
                    CreateLinkRequest.custom_code := Some "old";
                    CreateLinkRequest.note := None |} in
  let w' := serve_all localhost
              [(DeactivateLink "old", 30%Z); (CreateLink plain_request, 40%Z)] two_links in
  taken (db two_links) "old"
  /\ create_link localhost payload 50%Z w' = (Raise CustomCodeTaken, w').
Proof.
  assert (taken (db two_links) "old") as Ht.
  { exists retired. split; [|reflexivity].
    apply list_elem_of_further, list_elem_of_here. }
  split; [exact Ht|].
  apply (taken_code_stays_taken localhost
           [(DeactivateLink "old", 30%Z); (CreateLink plain_request, 40%Z)]
           two_links "o"%char "ld"
           {| CreateLinkRequest.url := "https://d.example/";
              CreateLinkRequest.custom_code := Some "old";
              CreateLinkRequest.note := None |}
           50%Z two_links_unique Ht eq_refl).
Defined.

Lemma list_links_pages_compose_witness :
  exists r1 r2 r,
    list_links localhost 0 1 two_links = (Ok r1, two_links)
    /\ list_links localhost 1 1 two_links = (Ok r2, two_links)
    /\ list_links localhost 0 2 two_links = (Ok r, two_links)
    /\ (ListLinksResponse.items r1 ++ ListLinksResponse.items r2)%list
       = ListLinksResponse.items r.
Proof.
  apply (list_links_pages_compose localhost 0 1 1 two_links); lia.
Defined.

Lemma run_schedule_unique_witness :
  unique_codes
    (db (run_schedule localhost racing_schedule
           (Arrived <$> [promo_request; promo_request], startup counting)).2).
Proof.
  apply (run_schedule_unique localhost racing_schedule
           (Arrived <$> [promo_request; promo_request], startup counting)).
  apply NoDup_nil_2.
Defined.

Lemma list_links_page_size_witness :
  (exists r, list_links localhost 1 50 two_links = (Ok r, two_links)
             /\ ListLinksResponse.total r = 2
             /\ length (ListLinksResponse.items r) = 1)
  /\ ~ ((-9223372036854775808 <= 9223372036854775808 <= 9223372036854775807)%Z
        /\ (-9223372036854775808 <= 50 <= 9223372036854775807)%Z).
Proof.
  split.
  - destruct (proj1 (list_links_page_size localhost 1 50 two_links))
      as (r & Hrun & Htotal & Hlen); [lia..|].
    exists r. split; [exact Hrun|]. split; [exact Htotal|exact Hlen].
  - apply (proj2 (list_links_page_size localhost 9223372036854775808 50 two_links)
             OverflowError two_links).
    vm_compute. reflexivity.
Defined.
